(** * Smartpresentation: the gesture-recognition core

    A shallow embedding of the gesture logic of the repository:

    - [Debouncer]   : [processGesture] of the [useGestureDetection] hook
                      (src/unnamed/part_005, lines 41-88);
    - [Classifier]  : [detectGesture]
                      (src/components/presentation/smart-presentation-with-mediapipe.tsx);
    - [Calibration] : the [CalibrationModal] collector
                      (src/components/presentation/calibration-modal.tsx);
    - [SwipeTracker]: [detectSwipeGesture]
                      (src/components/mediapipe/live-stream-detector.tsx).

    Numbers.  [Date.now()] and [debounceMs] are integer milliseconds and are
    modelled in [Z]; the test [d < debounceMs * 1.5] is written
    [2 * d < 3 * debounceMs], which is the same comparison on integers.
    Landmark coordinates, confidences and running averages are JavaScript
    numbers; they are modelled as exact rationals [Q]. *)

From Stdlib Require Import ZArith QArith Qabs Qround Lia Lqa List Bool.
From stdpp Require Import base option list gmap strings.
Import ListNotations.

(* ===================================================================== *)
(** * The temporal debouncer *)
(* ===================================================================== *)

Module Debouncer.
Local Open Scope Z_scope.

(** [GestureType] of the hook is the six labels or [null]; [null] is [None]. *)
Inductive Gesture : Type :=
| SWIPE_LEFT | SWIPE_RIGHT | OPEN_PALM | CLOSED_FIST | POINTING | THUMB_UP.

Definition GestureType : Type := option Gesture.

Definition Gesture_eqb (a b : Gesture) : bool :=
  match a, b with
  | SWIPE_LEFT, SWIPE_LEFT | SWIPE_RIGHT, SWIPE_RIGHT | OPEN_PALM, OPEN_PALM
  | CLOSED_FIST, CLOSED_FIST | POINTING, POINTING | THUMB_UP, THUMB_UP => true
  | _, _ => false
  end.

(** [===] on two values of [GestureType]. *)
Definition GestureType_eqb (a b : GestureType) : bool :=
  match a, b with
  | None, None => true
  | Some x, Some y => Gesture_eqb x y
  | _, _ => false
  end.

(** The options of [useGestureDetection] that are numbers, with their defaults
    (lines 15-21). *)
Record GestureDetectionOptions : Type := {
  debounceMs : Z;
  confidenceThreshold : Q;
  smoothingFrames : Z
}.

Definition defaultOptions : GestureDetectionOptions :=
  {| debounceMs := 800; confidenceThreshold := (7 # 10)%Q; smoothingFrames := 3 |}.

(** The two refs the debouncing reads and writes (lines 29-30).  The React
    display state ([currentGesture], [gestureConfidence]) and the 1500 ms
    clearing timer never read or write these refs and are left out. *)
Record Refs : Type := {
  lastGestureTimeRef : Z;
  lastGestureTypeRef : GestureType
}.

Definition initialRefs : Refs :=
  {| lastGestureTimeRef := 0; lastGestureTypeRef := None |}.

(** One call [processGesture(gesture, confidence)]: its two arguments, the
    value [Date.now()] returns in it, and whether
    [onGestureDetectedRef.current] is set at that moment. *)
Record Call : Type := {
  gesture : GestureType;
  confidence : Q;
  now : Z;
  hasCallback : bool
}.

Record GestureEvent : Type := {
  ev_type : GestureType;
  ev_confidence : Q;
  ev_timestamp : Z
}.

(** What a call does: one of the two early returns, or the acceptance, which
    carries the event and whether the callback was invoked with it.  An
    accepted event is an emitted one: the hook publishes it as its
    [currentGesture] and hands it to the callback when one is installed. *)
Inductive Outcome : Type :=
| Debounced
| SameGestureDebounced
| Accepted (e : GestureEvent) (called : bool).

Definition processGesture (o : GestureDetectionOptions) (r : Refs) (c : Call)
  : Refs * Outcome :=
  if now c - lastGestureTimeRef r <? debounceMs o then (r, Debounced)
  else if GestureType_eqb (gesture c) (lastGestureTypeRef r)
          && (2 * (now c - lastGestureTimeRef r) <? 3 * debounceMs o)
       then (r, SameGestureDebounced)
  else ({| lastGestureTimeRef := now c; lastGestureTypeRef := gesture c |},
        Accepted {| ev_type := gesture c; ev_confidence := confidence c;
                    ev_timestamp := now c |} (hasCallback c)).

Definition emittedOf (out : Outcome) : list GestureEvent :=
  match out with
  | Accepted e _ => [e]
  | _ => []
  end.

(** A sequence of calls, threading the refs; the result is the final refs and
    the accepted events, oldest first. *)
Fixpoint run (o : GestureDetectionOptions) (r : Refs) (cs : list Call)
  : Refs * list GestureEvent :=
  match cs with
  | [] => (r, [])
  | c :: cs' =>
      let '(r1, out) := processGesture o r c in
      let '(r2, es) := run o r1 cs' in
      (r2, emittedOf out ++ es)
  end.

Definition emitted (o : GestureDetectionOptions) (r : Refs) (cs : list Call)
  : list GestureEvent := snd (run o r cs).

Definition suppressed (out : Outcome) : bool :=
  match out with
  | Accepted _ _ => false
  | _ => true
  end.

(** The refs an accepted event leaves behind (lines 63-64). *)
Definition refsAfter (e : GestureEvent) : Refs :=
  {| lastGestureTimeRef := ev_timestamp e; lastGestureTypeRef := ev_type e |}.

(** A candidate [(g, q)] submitted at time [t], with a callback installed, and
    the event its acceptance emits. *)
Definition candidate (g : Gesture) (q : Q) (t : Z) : Call :=
  {| gesture := Some g; confidence := q; now := t; hasCallback := true |}.

Definition eventOf (c : Call) : GestureEvent :=
  {| ev_type := gesture c; ev_confidence := confidence c; ev_timestamp := now c |}.

Definition outcome (o : GestureDetectionOptions) (r : Refs) (c : Call) : Outcome :=
  snd (processGesture o r c).

(** The scenario of the specification, as it states it, with its times
    counted from [t0]: [t0 = 0] reads them as values of [Date.now()];
    "preceded by an emission" is the refs that emission left. *)
Definition scenario_as_stated (t0 : Z) : Prop :=
  let o := defaultOptions in
  let swipe t := candidate SWIPE_LEFT 1 (t0 + t) in
  let palm t := candidate OPEN_PALM 1 (t0 + t) in
  suppressed (outcome o initialRefs (swipe 0)) = false
  /\ suppressed (outcome o (refsAfter (eventOf (swipe 0))) (swipe 500)) = true
  /\ suppressed (outcome o (refsAfter (eventOf (swipe 0))) (swipe 1300)) = true
  /\ suppressed (outcome o (refsAfter (eventOf (swipe 0))) (palm 900)) = false
  /\ suppressed (outcome o (refsAfter (eventOf (palm 900))) (swipe 1300)) = false.

End Debouncer.

(* ===================================================================== *)
(** * Hand landmarks *)
(* ===================================================================== *)

Module Landmarks.

Record HandLandmark : Type := { x : Q; y : Q; z : Q }.

(** One hand is an array of landmarks; both files test its length against 21
    before they index it. *)
Definition Hand : Type := list HandLandmark.

(** [a < b] and [a > b] on numbers. *)
Definition Qltb (a b : Q) : bool := negb (Qle_bool b a).
Definition Qgtb (a b : Q) : bool := Qltb b a.

(** Hands for the examples: only [y] matters to the code modelled here. *)
Definition atY (v : Q) : HandLandmark := {| x := 0; y := v; z := 0 |}.

(** A raised hand: the wrist at 3/4 and every other landmark at 1/4, so that
    every extension is 1/2. *)
Definition thumbHand : Hand := atY (3 # 4) :: repeat (atY (1 # 4)) 20.

(** A fist: the wrist at 1/2, the thumb at 3/5, the four pip joints at 3/10
    and the four fingertips, curled below them, at 4/5. *)
Definition fistHand : Hand :=
  [ atY (1 # 2);
    atY (3 # 5); atY (3 # 5); atY (3 # 5); atY (3 # 5);
    atY (2 # 5); atY (3 # 10); atY (2 # 5); atY (4 # 5);
    atY (2 # 5); atY (3 # 10); atY (2 # 5); atY (4 # 5);
    atY (2 # 5); atY (3 # 10); atY (2 # 5); atY (4 # 5);
    atY (2 # 5); atY (3 # 10); atY (2 # 5); atY (4 # 5) ].

(** A hand whose wrist is at 4/5, whose thumb tip is [e] above the wrist and
    whose other landmarks are below it, at 9/10. *)
Definition thumbRaisedBy (e : Q) : Hand :=
  [ atY (4 # 5);
    atY (9 # 10); atY (9 # 10); atY (9 # 10); atY ((4 # 5) - e) ]
  ++ repeat (atY (9 # 10)) 16.

End Landmarks.

(* ===================================================================== *)
(** * The rule-based classifier *)
(* ===================================================================== *)

Module Classifier.
Import Landmarks.
Local Open Scope Q_scope.

(** [detectGesture] (lines 57-90).  The argument is [None] for a [null]
    array.  The six lookups are in range once the length test has passed; the
    last branch of the [match] stands for the [TypeError] an undefined entry
    would raise and is not reachable from it. *)
Definition detectGesture (landmarks : option Hand) : option string :=
  match landmarks with
  | None => None
  | Some lm =>
      if (length lm <? 21)%nat then None
      else
        match lm !! 0%nat, lm !! 4%nat, lm !! 8%nat,
              lm !! 12%nat, lm !! 16%nat, lm !! 20%nat with
        | Some wrist, Some thumbTip, Some indexTip,
          Some middleTip, Some ringTip, Some pinkyTip =>
            if Qltb (y thumbTip) (y wrist - (1 # 10))
               && Qgtb (y indexTip) (y wrist)
               && Qgtb (y middleTip) (y wrist)
            then Some "thumbs_up"%string
            else if Qltb (y indexTip) (y wrist - (5 # 100))
                    && Qgtb (y middleTip) (y wrist)
                    && Qgtb (y ringTip) (y wrist)
                    && Qgtb (y pinkyTip) (y wrist)
            then Some "pointing"%string
            else if Qltb (y thumbTip) (y wrist)
                    && Qltb (y indexTip) (y wrist)
                    && Qltb (y middleTip) (y wrist)
                    && Qltb (y ringTip) (y wrist)
                    && Qltb (y pinkyTip) (y wrist)
            then Some "open_palm"%string
            else None
        | _, _, _, _, _, _ => None
        end
  end.

(** The features of the data model, read off a hand: extension is
    [wrist.y - tip.y], curl is [tip.y - pip.y].  A missing landmark reads as
    [0]; every use below is on a hand of at least 21 landmarks. *)
Definition yAt (lm : Hand) (i : nat) : Q :=
  match lm !! i with
  | Some p => y p
  | None => 0
  end.

Definition extension (lm : Hand) (tip : nat) : Q := yAt lm 0 - yAt lm tip.
Definition curl (lm : Hand) (tip pip : nat) : Q := yAt lm tip - yAt lm pip.

Definition thumbExtension (lm : Hand) : Q := extension lm 4.
Definition indexExtension (lm : Hand) : Q := extension lm 8.
Definition middleExtension (lm : Hand) : Q := extension lm 12.
Definition ringExtension (lm : Hand) : Q := extension lm 16.
Definition pinkyExtension (lm : Hand) : Q := extension lm 20.

Definition indexCurl (lm : Hand) : Q := curl lm 8 6.
Definition middleCurl (lm : Hand) : Q := curl lm 12 10.
Definition ringCurl (lm : Hand) : Q := curl lm 16 14.
Definition pinkyCurl (lm : Hand) : Q := curl lm 20 18.

(** The three rules of [detectGesture], as conditions on the features. *)
Definition thumbsUpRule (lm : Hand) : Prop :=
  (1 # 10) < thumbExtension lm /\ indexExtension lm < 0 /\ middleExtension lm < 0.

Definition pointingRule (lm : Hand) : Prop :=
  (5 # 100) < indexExtension lm /\ middleExtension lm < 0
  /\ ringExtension lm < 0 /\ pinkyExtension lm < 0.

Definition openPalmRule (lm : Hand) : Prop :=
  0 < thumbExtension lm /\ 0 < indexExtension lm /\ 0 < middleExtension lm
  /\ 0 < ringExtension lm /\ 0 < pinkyExtension lm.

(** All four non-thumb curls above a threshold [th]. *)
Definition allCurlsExceed (th : Q) (lm : Hand) : Prop :=
  th < indexCurl lm /\ th < middleCurl lm /\ th < ringCurl lm /\ th < pinkyCurl lm.

(** The thumb test the specification describes for a calibrated classifier:
    the calibrated mean, less a tolerance, in place of the constant [0.1].
    This definition follows the specification's words, not the source; it is
    compared with [detectGesture] below. *)
Definition spec_calibratedThumbTest (mean tol : Q) (lm : Hand) : bool :=
  Qgtb (thumbExtension lm) (mean - tol)
  && Qltb (indexExtension lm) 0 && Qltb (middleExtension lm) 0.


(** The six landmarks [detectGesture] reads. *)
Definition keyLandmarks : list nat := [0; 4; 8; 12; 16; 20]%nat.

(** ** The component around [detectGesture] *)







End Classifier.

(* ===================================================================== *)
(** * The calibration collector *)
(* ===================================================================== *)

Module Calibration.
Import Landmarks.
Local Open Scope Q_scope.

(** The keys of [CalibrationData], which are also the [gesture] values of the
    calibration steps. *)
Module Key.
Inductive t : Type := thumbUp | pinkyUp | openPalm | closedFist | pointing.
End Key.

(** ** The store

    The five per-gesture objects are allocated once, when the module-level
    constant [EMPTY_CALIBRATION_DATA] is evaluated.  The component keeps
    references to them: [{ ...prevData }] copies the five references, not the
    objects.  A per-gesture object is a cell of the store.  Its [samples] array
    is reachable only through the cell, so [push] on it is an update of the
    cell; the [fingerExtensions] and [fingerCurls] arrays are only ever
    replaced, never written in place. *)
Inductive StepData : Type :=
| ThumbUpData (samples : list Hand) (thumbExtension thumbTipY wristY : Q)
| PinkyUpData (samples : list Hand) (pinkyExtension pinkyTipY wristY : Q)
| OpenPalmData (samples : list Hand) (fingerExtensions : list Q)
| ClosedFistData (samples : list Hand) (fingerCurls : list Q)
| PointingData (samples : list Hand) (indexExtension : Q).

Definition samplesOf (d : StepData) : list Hand :=
  match d with
  | ThumbUpData s _ _ _ | PinkyUpData s _ _ _ | OpenPalmData s _
  | ClosedFistData s _ | PointingData s _ => s
  end.

(** The running averages a cell holds, in the order of its fields. *)
Definition averagesOf (d : StepData) : list Q :=
  match d with
  | ThumbUpData _ a b c | PinkyUpData _ a b c => [a; b; c]
  | OpenPalmData _ l | ClosedFistData _ l => l
  | PointingData _ a => [a]
  end.

(** Addresses of the store. *)
Abbreviation loc := positive.

Abbreviation Heap := (gmap loc StepData).

(** The outer object: five references. *)
Record CalibrationData : Type := {
  thumbUp : loc;
  pinkyUp : loc;
  openPalm : loc;
  closedFist : loc;
  pointing : loc
}.

(** [data[k]] and [data[k] = l]. *)
Definition getKey (k : Key.t) (d : CalibrationData) : loc :=
  match k with
  | Key.thumbUp => thumbUp d
  | Key.pinkyUp => pinkyUp d
  | Key.openPalm => openPalm d
  | Key.closedFist => closedFist d
  | Key.pointing => pointing d
  end.

Definition setKey (k : Key.t) (l : loc) (d : CalibrationData) : CalibrationData :=
  match k with
  | Key.thumbUp =>
      {| thumbUp := l; pinkyUp := pinkyUp d; openPalm := openPalm d;
         closedFist := closedFist d; pointing := pointing d |}
  | Key.pinkyUp =>
      {| thumbUp := thumbUp d; pinkyUp := l; openPalm := openPalm d;
         closedFist := closedFist d; pointing := pointing d |}
  | Key.openPalm =>
      {| thumbUp := thumbUp d; pinkyUp := pinkyUp d; openPalm := l;
         closedFist := closedFist d; pointing := pointing d |}
  | Key.closedFist =>
      {| thumbUp := thumbUp d; pinkyUp := pinkyUp d; openPalm := openPalm d;
         closedFist := l; pointing := pointing d |}
  | Key.pointing =>
      {| thumbUp := thumbUp d; pinkyUp := pinkyUp d; openPalm := openPalm d;
         closedFist := closedFist d; pointing := l |}
  end.

(** [EMPTY_CALIBRATION_DATA] (lines 43-49): the constant, and the store as the
    evaluation of its initialiser leaves it. *)
Definition EMPTY_CALIBRATION_DATA : CalibrationData :=
  {| thumbUp := 1; pinkyUp := 2; openPalm := 3; closedFist := 4; pointing := 5 |}%positive.

Definition emptyStep (k : Key.t) : StepData :=
  match k with
  | Key.thumbUp => ThumbUpData [] 0 0 0
  | Key.pinkyUp => PinkyUpData [] 0 0 0
  | Key.openPalm => OpenPalmData [] [0; 0; 0; 0]
  | Key.closedFist => ClosedFistData [] [0; 0; 0; 0]
  | Key.pointing => PointingData [] 0
  end.

Definition moduleHeap : Heap :=
  <[1%positive := emptyStep Key.thumbUp]>
  (<[2%positive := emptyStep Key.pinkyUp]>
  (<[3%positive := emptyStep Key.openPalm]>
  (<[4%positive := emptyStep Key.closedFist]>
  (<[5%positive := emptyStep Key.pointing]> ∅)))).

(** [CALIBRATION_STEPS] (lines 51-100): the [id] and the optional [gesture] of
    each step; titles, descriptions and icons are left out. *)
Record Step : Type := { id : string; gesture : option Key.t }.

Definition CALIBRATION_STEPS : list Step :=
  [ {| id := "intro"; gesture := None |};
    {| id := "thumbUp"; gesture := Some Key.thumbUp |};
    {| id := "pinkyUp"; gesture := Some Key.pinkyUp |};
    {| id := "openPalm"; gesture := Some Key.openPalm |};
    {| id := "closedFist"; gesture := Some Key.closedFist |};
    {| id := "pointing"; gesture := Some Key.pointing |};
    {| id := "complete"; gesture := None |} ].

Inductive DetectionStatus : Type := waiting | detecting | success | error.

(** The component's state (lines 103-111).  [collectionIntervalRef] records
    whether the 10 s timeout is pending. *)
Record Modal : Type := {
  currentStep : nat;
  calibrationData : CalibrationData;
  samplesCollected : nat;
  isCollecting : bool;
  detectionStatus : DetectionStatus;
  collectionIntervalRef : bool
}.

Record World : Type := { modal : Modal; heap : Heap }.

Definition samplesNeeded : nat := 10.

(** The state of a freshly mounted modal in a freshly loaded module. *)
Definition initialModal : Modal :=
  {| currentStep := 0; calibrationData := EMPTY_CALIBRATION_DATA;
     samplesCollected := 0; isCollecting := false;
     detectionStatus := waiting; collectionIntervalRef := false |}.

Definition initialWorld : World := {| modal := initialModal; heap := moduleHeap |}.

(** [CALIBRATION_STEPS[currentStep]?.gesture] (line 112). *)
Definition currentGesture (m : Modal) : option Key.t :=
  match CALIBRATION_STEPS !! currentStep m with
  | Some st => gesture st
  | None => None
  end.

(** What the modal calls on its parent. *)
Inductive Callback : Type :=
| onCalibrationComplete (d : CalibrationData)
| onClose.

(** What [calibrationData[k]] denotes in a world. *)
Definition stepDataOf (w : World) (k : Key.t) : option StepData :=
  heap w !! getKey k (calibrationData (modal w)).

(** ** The landmark effect (lines 126-248) *)

(** [landmarks[i].y]; [None] stands for the [TypeError] of an undefined entry. *)
Definition lmY (landmarks : Hand) (i : nat) : option Q := y <$> landmarks !! i.

(** [(avg * samples.length + sample) / (samples.length + 1)], where [len] is
    the value [samples.length] has when the line runs. *)
Definition foldAverage (avg len sample : Q) : Q := (avg * len + sample) / (len + 1).

(** [samples.length] as a number. *)
Definition lengthQ (samples : list Hand) : Q := inject_Z (Z.of_nat (length samples)).

(** The [map] over the stored averages (lines 187-191 and 216-220).
    [fresh[i]] past the end of [fresh] is undefined in the source; the stored
    array has the four entries of its initialiser, as has [fresh], so no index
    is, and such an index reads [0] here. *)
Definition foldAverages (stored : list Q) (len : Q) (fresh : list Q) : list Q :=
  imap (fun i ext => foldAverage ext len (default 0 (fresh !! i))) stored.

(** The body of the [setCalibrationData] updater (lines 134-234).  The
    spread [{ ...prevData }] copies the references, so every write below
    lands in the cell the reference points to.  In each branch the sample is
    pushed first and [samples.length] is read afterwards.  [None] is an
    exception (an undefined landmark, or a cell of another shape), which the
    caller's length test and the types exclude. *)
Definition addSample (k : Key.t) (landmarks : Hand) (d : CalibrationData) (h : Heap)
  : option Heap :=
  match k with
  | Key.thumbUp =>
      wrist ← lmY landmarks 0;
      thumbTip ← lmY landmarks 4;
      let thumbExtension := wrist - thumbTip in
      match h !! thumbUp d with
      | Some (ThumbUpData samples avgExtension avgTipY avgWristY) =>
          let samples := samples ++ [landmarks] in
          let avgExtension := foldAverage avgExtension (lengthQ samples) thumbExtension in
          let avgTipY := foldAverage avgTipY (lengthQ samples) thumbTip in
          let avgWristY := foldAverage avgWristY (lengthQ samples) wrist in
          Some (<[thumbUp d := ThumbUpData samples avgExtension avgTipY avgWristY]> h)
      | _ => None
      end
  | Key.pinkyUp =>
      wrist ← lmY landmarks 0;
      pinkyTip ← lmY landmarks 20;
      let pinkyExtension := wrist - pinkyTip in
      match h !! pinkyUp d with
      | Some (PinkyUpData samples avgExtension avgTipY avgWristY) =>
          let samples := samples ++ [landmarks] in
          let avgExtension := foldAverage avgExtension (lengthQ samples) pinkyExtension in
          let avgTipY := foldAverage avgTipY (lengthQ samples) pinkyTip in
          let avgWristY := foldAverage avgWristY (lengthQ samples) wrist in
          Some (<[pinkyUp d := PinkyUpData samples avgExtension avgTipY avgWristY]> h)
      | _ => None
      end
  | Key.openPalm =>
      wrist ← lmY landmarks 0;
      indexTip ← lmY landmarks 8;
      middleTip ← lmY landmarks 12;
      ringTip ← lmY landmarks 16;
      pinkyTip ← lmY landmarks 20;
      let fingerExtensions :=
        [wrist - indexTip; wrist - middleTip; wrist - ringTip; wrist - pinkyTip] in
      match h !! openPalm d with
      | Some (OpenPalmData samples stored) =>
          let samples := samples ++ [landmarks] in
          let stored :=
            if (length stored =? 0)%nat then fingerExtensions
            else foldAverages stored (lengthQ samples) fingerExtensions in
          Some (<[openPalm d := OpenPalmData samples stored]> h)
      | _ => None
      end
  | Key.closedFist =>
      indexPip ← lmY landmarks 6;
      indexTip ← lmY landmarks 8;
      middlePip ← lmY landmarks 10;
      middleTip ← lmY landmarks 12;
      ringPip ← lmY landmarks 14;
      ringTip ← lmY landmarks 16;
      pinkyPip ← lmY landmarks 18;
      pinkyTip ← lmY landmarks 20;
      let fingerCurls :=
        [indexTip - indexPip; middleTip - middlePip; ringTip - ringPip;
         pinkyTip - pinkyPip] in
      match h !! closedFist d with
      | Some (ClosedFistData samples stored) =>
          let samples := samples ++ [landmarks] in
          let stored :=
            if (length stored =? 0)%nat then fingerCurls
            else foldAverages stored (lengthQ samples) fingerCurls in
          Some (<[closedFist d := ClosedFistData samples stored]> h)
      | _ => None
      end
  | Key.pointing =>
      wrist ← lmY landmarks 0;
      indexTip ← lmY landmarks 8;
      let indexExtension := wrist - indexTip in
      match h !! pointing d with
      | Some (PointingData samples avgExtension) =>
          let samples := samples ++ [landmarks] in
          let avgExtension := foldAverage avgExtension (lengthQ samples) indexExtension in
          Some (<[pointing d := PointingData samples avgExtension]> h)
      | _ => None
      end
  end.

(** [stopCollecting] (lines 266-273). *)
Definition stopCollecting (m : Modal) : Modal :=
  {| currentStep := currentStep m; calibrationData := calibrationData m;
     samplesCollected := samplesCollected m; isCollecting := false;
     detectionStatus := detectionStatus m; collectionIntervalRef := false |}.

Definition setDetectionStatus (s : DetectionStatus) (m : Modal) : Modal :=
  {| currentStep := currentStep m; calibrationData := calibrationData m;
     samplesCollected := samplesCollected m; isCollecting := isCollecting m;
     detectionStatus := s; collectionIntervalRef := collectionIntervalRef m |}.

Definition setSamplesCollected (n : nat) (m : Modal) : Modal :=
  {| currentStep := currentStep m; calibrationData := calibrationData m;
     samplesCollected := n; isCollecting := isCollecting m;
     detectionStatus := detectionStatus m;
     collectionIntervalRef := collectionIntervalRef m |}.

Definition setCurrentStep (n : nat) (m : Modal) : Modal :=
  {| currentStep := n; calibrationData := calibrationData m;
     samplesCollected := samplesCollected m; isCollecting := isCollecting m;
     detectionStatus := detectionStatus m;
     collectionIntervalRef := collectionIntervalRef m |}.

Definition setCalibrationData (d : CalibrationData) (m : Modal) : Modal :=
  {| currentStep := currentStep m; calibrationData := d;
     samplesCollected := samplesCollected m; isCollecting := isCollecting m;
     detectionStatus := detectionStatus m;
     collectionIntervalRef := collectionIntervalRef m |}.

(** The effect that runs when a new [handLandmarks] value arrives: the guards
    of lines 127-131, then the two updaters. *)
Definition onHandLandmarks (handLandmarks : option (list Hand)) (w : World) : World :=
  let m := modal w in
  match handLandmarks, currentGesture m with
  | Some (landmarks :: _), Some k =>
      if negb (isCollecting m) then w
      else if (length landmarks <? 21)%nat then w
      else
        match addSample k landmarks (calibrationData m) (heap w) with
        | None => w
        | Some h =>
            let newCount := S (samplesCollected m) in
            let m :=
              if (samplesNeeded <=? newCount)%nat
              then setDetectionStatus success (stopCollecting m)
              else m in
            {| modal := setSamplesCollected newCount m; heap := h |}
        end
  | _, _ => w
  end.

(** ** The buttons *)

(** [startCollecting] (lines 251-263); the timeout is armed. *)
Definition startCollecting (w : World) : World :=
  let m := modal w in
  {| modal :=
       {| currentStep := currentStep m; calibrationData := calibrationData m;
          samplesCollected := 0; isCollecting := true;
          detectionStatus := detecting; collectionIntervalRef := true |};
     heap := heap w |}.

(** The timeout's callback (lines 257-262); [captured] is the value of
    [samplesCollected] in the closure that armed it. *)
Definition collectionTimeout (captured : nat) (w : World) : World :=
  if (captured <? samplesNeeded)%nat
  then {| modal := setDetectionStatus error (stopCollecting (modal w)); heap := heap w |}
  else w.

(** [nextStep] (lines 276-287). *)
Definition nextStep (w : World) : World * list Callback :=
  let m := modal w in
  if (currentStep m <? length CALIBRATION_STEPS - 1)%nat
  then ({| modal :=
             stopCollecting
               (setSamplesCollected 0
                  (setDetectionStatus waiting (setCurrentStep (currentStep m + 1) m)));
           heap := heap w |}, [])
  else (w, [onCalibrationComplete (calibrationData m); onClose]).

(** [prevStep] (lines 290-299). *)
Definition prevStep (w : World) : World * list Callback :=
  let m := modal w in
  if (0 <? currentStep m)%nat
  then ({| modal :=
             stopCollecting
               (setSamplesCollected 0
                  (setDetectionStatus waiting (setCurrentStep (currentStep m - 1) m)));
           heap := heap w |}, [])
  else (w, [onClose]).

(** [resetStep] (lines 302-315): the updater copies the references and
    stores the reference [EMPTY_CALIBRATION_DATA[currentGesture]] under the
    current key. *)
Definition resetStep (w : World) : World :=
  let m := stopCollecting (setSamplesCollected 0 (setDetectionStatus waiting (modal w))) in
  match currentGesture (modal w) with
  | Some k =>
      {| modal :=
           setCalibrationData
             (setKey k (getKey k EMPTY_CALIBRATION_DATA) (calibrationData m)) m;
         heap := heap w |}
  | None => {| modal := m; heap := heap w |}
  end.

(** [cancelCalibration] (lines 318-321). *)
Definition cancelCalibration (w : World) : World * list Callback :=
  ({| modal := stopCollecting (modal w); heap := heap w |}, [onClose]).

(** The step's controls as the specification names them: Idle is the state
    before collection starts. *)
Definition isIdle (m : Modal) : Prop :=
  isCollecting m = false /\ detectionStatus m = waiting /\ samplesCollected m = 0%nat.

(** Feeding the same frame [n] times to a collecting modal. *)
Fixpoint feed (n : nat) (handLandmarks : option (list Hand)) (w : World) : World :=
  match n with
  | O => w
  | S n' => feed n' handLandmarks (onHandLandmarks handLandmarks w)
  end.

(** The updater run [n] times on the same hand. *)
Fixpoint addSamples (n : nat) (k : Key.t) (landmarks : Hand) (d : CalibrationData)
    (h : Heap) : option Heap :=
  match n with
  | O => Some h
  | S n' => h' ← addSample k landmarks d h; addSamples n' k landmarks d h'
  end.

(** The worlds the component can be in: the fresh one, and what the effect,
    the timeout and the buttons make of a reachable one. *)
Inductive reachable : World -> Prop :=
| reach_initial : reachable initialWorld
| reach_landmarks hl w : reachable w -> reachable (onHandLandmarks hl w)
| reach_start w : reachable w -> reachable (startCollecting w)
| reach_timeout n w : reachable w -> reachable (collectionTimeout n w)
| reach_next w : reachable w -> reachable (fst (nextStep w))
| reach_prev w : reachable w -> reachable (fst (prevStep w))
| reach_reset w : reachable w -> reachable (resetStep w)
| reach_cancel w : reachable w -> reachable (fst (cancelCalibration w)).

(** The running averages of a step, reduced to lowest terms. *)
Definition averagesAt (w : World) (k : Key.t) : option (list Q) :=
  (fun d => map Qred (averagesOf d)) <$> stepDataOf w k.

(** A fresh modal taken to the thumb-up step, with collection started. *)
Definition collectingThumbUp : World := startCollecting (fst (nextStep initialWorld)).

(** A calibration run: ten frames of a hand whose thumb is 11/20 above the
    wrist are collected at the thumb-up step, then Next is pressed up to the
    final step. *)
Definition calibratedWorld : World :=
  let w := feed 10 (Some [thumbRaisedBy (11 # 20)]) collectingThumbUp in
  fst (nextStep (fst (nextStep (fst (nextStep (fst (nextStep (fst (nextStep w))))))))).

(** ** Progress, and what the proofs below need *)

(** The overall progress shown by the bar (lines 115-123), in percent. *)
Definition calibrationProgress (m : Modal) : Q :=
  let totalSteps := inject_Z (Z.of_nat (length CALIBRATION_STEPS) - 2) in
  let completedSteps :=
    if (0 <? currentStep m)%nat then inject_Z (Z.of_nat (currentStep m) - 1) else 0 in
  let stepProgress :=
    if (0 <? currentStep m)%nat && (currentStep m <? length CALIBRATION_STEPS - 1)%nat
    then inject_Z (Z.of_nat (samplesCollected m)) / inject_Z (Z.of_nat samplesNeeded)
    else 0 in
  (completedSteps + stepProgress) / totalSteps * 100.

(** A cell has the shape of its key, with four averages where it holds an
    array of them. *)
Definition shaped (k : Key.t) (d : StepData) : Prop :=
  match k, d with
  | Key.thumbUp, ThumbUpData _ _ _ _ => True
  | Key.pinkyUp, PinkyUpData _ _ _ _ => True
  | Key.openPalm, OpenPalmData _ l => length l = 4%nat
  | Key.closedFist, ClosedFistData _ l => length l = 4%nat
  | Key.pointing, PointingData _ _ => True
  | _, _ => False
  end.

Definition wellFormed (h : Heap) : Prop :=
  forall k : Key.t,
    exists d : StepData, h !! getKey k EMPTY_CALIBRATION_DATA = Some d /\ shaped k d.

(** The samples stored under a key. *)
Definition samplesAt (w : World) (k : Key.t) : list Hand :=
  match stepDataOf w k with
  | Some d => samplesOf d
  | None => []
  end.

(** One thing that happens to the modal. *)
Inductive Event : Type :=
| Landmarks (handLandmarks : option (list Hand))
| Start
| Timeout (captured : nat)
| Next
| Back
| Reset
| Cancel.

Definition handle (w : World) (e : Event) : World :=
  match e with
  | Landmarks hl => onHandLandmarks hl w
  | Start => startCollecting w
  | Timeout n => collectionTimeout n w
  | Next => fst (nextStep w)
  | Back => fst (prevStep w)
  | Reset => resetStep w
  | Cancel => fst (cancelCalibration w)
  end.

Definition handleAll (w : World) (es : list Event) : World := fold_left handle es w.


(** The steps and counters are where they can be: the step is one of the
    seven, the counter is at most the samples needed and below them while
    collecting, and success means exactly that many samples, collection
    stopped. *)
Definition countersOk (m : Modal) : Prop :=
  (currentStep m <= 6)%nat
  /\ (samplesCollected m <= samplesNeeded)%nat
  /\ (isCollecting m = true -> (samplesCollected m < samplesNeeded)%nat)
  /\ (detectionStatus m = success ->
      samplesCollected m = samplesNeeded /\ isCollecting m = false).

(** A frame the effect can use: it has a first hand, of at least 21
    landmarks. *)
Definition fullFrame (handLandmarks : option (list Hand)) : Prop :=
  match handLandmarks with
  | Some (landmarks :: _) => (21 <= length landmarks)%nat
  | _ => False
  end.

(** The hand the effect reads from a frame. *)
Definition firstHand (handLandmarks : option (list Hand)) : list Hand :=
  match handLandmarks with
  | Some (landmarks :: _) => [landmarks]
  | _ => []
  end.



End Calibration.

(* ===================================================================== *)
(** * The motion-based swipe tracker *)
(* ===================================================================== *)

Module SwipeTracker.
Import Landmarks.

(** [ImageData]: the RGBA bytes, row by row, and the frame's width. *)
Record ImageData : Type := { data : list Z; width : Z; height : Z }.

(** The two refs of the detector (lines 25-26). *)
Record Refs : Type := { lastXRef : option Q; gestureCooldownRef : Z }.

Definition initialRefs : Refs := {| lastXRef := None; gestureCooldownRef := 0 |}.

Inductive Swipe : Type := next | prev | none.

(** The values [i] takes in [for (i = 0; i < data.length; i += 4 * 40)]. *)
Definition sampleOffsets (len : nat) : list nat :=
  map (fun k => (160 * k)%nat) (seq 0 ((len + 159) / 160)).

(** One turn of the loop (lines 40-48) on the pair [(handXSum, count)].  An
    index past the end reads [undefined], the brightness is then [NaN] and the
    test fails.  [(i / 4) % frame.width] is exact: [i] is a multiple of 4. *)
Definition scanPixel (frame : ImageData) (acc : Z * Z) (i : nat) : Z * Z :=
  match data frame !! i, data frame !! (i + 1)%nat, data frame !! (i + 2)%nat with
  | Some r, Some g, Some b =>
      let brightness := (inject_Z (r + g + b) / 3)%Q in
      if Qgtb brightness 100
      then (fst acc + Z.rem (Z.of_nat i / 4) (width frame), snd acc + 1)%Z
      else acc
  | _, _, _ => acc
  end.

Definition brightPixels (frame : ImageData) : Z * Z :=
  fold_left (scanPixel frame) (sampleOffsets (length (data frame))) (0, 0)%Z.

(** [detectSwipeGesture] (lines 28-70). *)
Definition detectSwipeGesture (r : Refs) (frame : ImageData) : Refs * Swipe :=
  let '(handXSum, count) := brightPixels frame in
  if (count <? 10)%Z then (r, none)
  else
    let avgX := (inject_Z handXSum / inject_Z count)%Q in
    let lastX := lastXRef r in
    if (0 <? gestureCooldownRef r)%Z
    then ({| lastXRef := Some avgX; gestureCooldownRef := gestureCooldownRef r - 1 |},
          none)
    else
      match lastX with
      | Some lx =>
          let delta := (avgX - lx)%Q in
          if Qgtb (Qabs delta) 50
          then ({| lastXRef := Some avgX; gestureCooldownRef := 20 |},
                if Qgtb delta 0 then next else prev)
          else ({| lastXRef := Some avgX; gestureCooldownRef := gestureCooldownRef r |},
                none)
      | None =>
          ({| lastXRef := Some avgX; gestureCooldownRef := gestureCooldownRef r |}, none)
      end.

(** The frame loop: the refs threaded through the frames, and what each frame
    yields. *)
Fixpoint frames (r : Refs) (fs : list ImageData) : Refs * list Swipe :=
  match fs with
  | [] => (r, [])
  | f :: fs' =>
      let '(r1, s) := detectSwipeGesture r f in
      let '(r2, ss) := frames r1 fs' in
      (r2, s :: ss)
  end.

(** The centroid a frame yields, when it has enough bright pixels. *)
Definition centroid (frame : ImageData) : option Q :=
  let '(handXSum, count) := brightPixels frame in
  if (count <? 10)%Z then None else Some (inject_Z handXSum / inject_Z count)%Q.

(** Frames for the examples: [dark] bytes of 0 followed by [bright] bytes of
    255, in a frame 640 pixels wide. *)
Definition testFrame (dark bright : nat) : ImageData :=
  {| data := repeat 0%Z dark ++ repeat 255%Z bright; width := 640; height := 480 |}.

(** No sampled pixel of the frame is bright: every byte is at most 100. *)
Definition dark (frame : ImageData) : Prop := Forall (fun b => (b <= 100)%Z) (data frame).

(** The stored centroid, when there is one, is between 0 and [hi]. *)
Definition storedBelow (hi : Z) (r : Refs) : Prop :=
  match lastXRef r with
  | Some q => (0 <= q <= inject_Z hi)%Q
  | None => True
  end.

(** A frame for the examples, [w] pixels wide: [dim] bytes of 0 followed by
    [bright] bytes of 255. *)
Definition frameOfWidth (w : Z) (dim bright : nat) : ImageData :=
  {| data := repeat 0%Z dim ++ repeat 255%Z bright; width := w; height := 1 |}.

End SwipeTracker.

(* ===================================================================== *)
(** * The rest of the gesture hook: keyboard simulation and FPS counter *)
(* ===================================================================== *)

Module GestureHook.
Import Debouncer.
Local Open Scope Z_scope.

(** [toLowerCase] on the characters A-Z.  A character outside ASCII is left
    as it is; no such character lower-cases to a letter of the six key names
    below, so the [switch] takes the same branch. *)
Definition lowerChar (c : Ascii.ascii) : Ascii.ascii :=
  let n := Ascii.nat_of_ascii c in
  if (65 <=? n)%nat && (n <=? 90)%nat then Ascii.ascii_of_nat (n + 32) else c.

Fixpoint toLowerCase (s : string) : string :=
  match s with
  | EmptyString => EmptyString
  | String c s' => String (lowerChar c) (toLowerCase s')
  end.

(** The [switch] of [handleKeyDown] (lines 105-128); [None] is its
    [default: return]. *)
Definition keyGesture (key : string) : GestureType :=
  let k := toLowerCase key in
  if String.eqb k "arrowleft" then Some SWIPE_LEFT
  else if String.eqb k "arrowright" then Some SWIPE_RIGHT
  else if String.eqb k "o" then Some OPEN_PALM
  else if String.eqb k "c" then Some CLOSED_FIST
  else if String.eqb k "p" then Some POINTING
  else if String.eqb k "t" then Some THUMB_UP
  else None.

(** A [keydown] event: its [key], the value of [Date.now()] while it is
    handled, and whether a callback is installed then. *)
Record KeyboardEvent : Type := {
  key : string;
  keyTime : Z;
  keyCallback : bool
}.

(** The candidate the handler submits for a key: confidence 1.0 (line 132). *)
Definition keyCall (e : KeyboardEvent) : option Call :=
  match keyGesture (key e) with
  | Some g => Some {| gesture := Some g; confidence := 1; now := keyTime e;
                      hasCallback := keyCallback e |}
  | None => None
  end.

(** What handling a key did: whether [preventDefault] was called, and the
    outcome of [processGesture] when it was called. *)
Record KeyResult : Type := {
  defaultPrevented : bool;
  processed : option Outcome
}.

(** [handleKeyDown] (lines 99-134). *)
Definition handleKeyDown (o : GestureDetectionOptions) (r : Refs) (e : KeyboardEvent)
  : Refs * KeyResult :=
  let prevented := String.eqb (key e) "ArrowLeft" || String.eqb (key e) "ArrowRight" in
  match keyCall e with
  | Some c =>
      let '(r1, out) := processGesture o r c in
      (r1, {| defaultPrevented := prevented; processed := Some out |})
  | None => (r, {| defaultPrevented := prevented; processed := None |})
  end.

(** The effect installs the listener only when [enabled] (lines 91-96). *)
Definition onKeyDown (enabled : bool) (o : GestureDetectionOptions) (r : Refs)
    (e : KeyboardEvent) : Refs * KeyResult :=
  if enabled then handleKeyDown o r e
  else (r, {| defaultPrevented := false; processed := None |}).

Definition keyEmitted (res : KeyResult) : list GestureEvent :=
  match processed res with
  | Some out => emittedOf out
  | None => []
  end.

(** A sequence of key presses. *)
Fixpoint keyboardRun (enabled : bool) (o : GestureDetectionOptions) (r : Refs)
    (es : list KeyboardEvent) : Refs * list GestureEvent :=
  match es with
  | [] => (r, [])
  | e :: es' =>
      let '(r1, res) := onKeyDown enabled o r e in
      let '(r2, evs) := keyboardRun enabled o r1 es' in
      (r2, keyEmitted res ++ evs)
  end.

(** The candidates a sequence of key presses submits. *)
Definition keyCalls (es : list KeyboardEvent) : list Call := omap keyCall es.

(** The call that resubmits an emitted event at its own time. *)
Definition replayCall (e : GestureEvent) : Call :=
  {| gesture := ev_type e; confidence := ev_confidence e; now := ev_timestamp e;
     hasCallback := true |}.

(** Calls spaced in time: twice the distance of each call from the one
    before it (from [last] for the first) is at least [gap]. *)
Fixpoint spaced (gap last : Z) (cs : list Call) : Prop :=
  match cs with
  | [] => True
  | c :: cs' => gap <= 2 * (now c - last) /\ spaced gap (now c) cs'
  end.

(** ** The FPS counter (lines 144-178) *)

(** [frameTimesRef] and the [fps] state.  [performance.now()] is a number of
    milliseconds with a fraction. *)
Record FpsState : Type := { frameTimesRef : list Q; fps : Z }.

(** The state the effect leaves when detection is disabled, and the cleanup
    leaves behind. *)
Definition fpsDisabled : FpsState := {| frameTimesRef := []; fps := 0 |}.

(** [Math.round]: the nearest integer, halves upwards. *)
Definition round (q : Q) : Z := Qfloor (q + (1 # 2))%Q.

(** [updateFPS] (lines 154-169).  A zero [timeSpan] makes the quotient
    [Infinity], and [Math.min(Infinity, 30)] is 30. *)
Definition updateFPS (tick : Q) (s : FpsState) : FpsState :=
  let times := frameTimesRef s ++ [tick] in
  let times := if (60 <? length times)%nat then tail times else times in
  if (1 <? length times)%nat
  then
    let timeSpan := (List.last times 0 - hd 0%Q times)%Q in
    let frames := inject_Z (Z.of_nat (length times) - 1) in
    let shown :=
      if Qeq_bool timeSpan 0 then 30
      else Z.min (round (frames * 1000 / timeSpan)) 30 in
    {| frameTimesRef := times; fps := shown |}
  else {| frameTimesRef := times; fps := fps s |}.

(** The interval timer firing at the given times, oldest first. *)
Definition fpsTicks (ticks : list Q) (s : FpsState) : FpsState :=
  fold_left (fun st t => updateFPS t st) ticks s.

(** The clock does not run backwards. *)
Fixpoint nondecreasing (ts : list Q) : Prop :=
  match ts with
  | [] => True
  | t :: ts' => Forall (fun u => (t <= u)%Q) ts' /\ nondecreasing ts'
  end.

End GestureHook.

(* ===================================================================== *)
(** * The simple gesture hook *)
(* ===================================================================== *)

Module SimpleHook.
Import Debouncer.
Local Open Scope Z_scope.

(** [processGesture] of [useSimpleGestureDetection]
    (src/hooks/use-simple-gesture-detection.tsx, lines 84-108): one ref,
    [lastGestureTimeRef], and the plain window only.  The result is the new
    value of the ref and the gesture passed to the callback, if any. *)
Definition processGesture (debounceMs lastGestureTimeRef : Z) (gesture : GestureType)
    (now : Z) : Z * option (GestureType * Z) :=
  if now - lastGestureTimeRef <? debounceMs then (lastGestureTimeRef, None)
  else (now, Some (gesture, now)).

Fixpoint run (debounceMs lastGestureTimeRef : Z) (cs : list (GestureType * Z))
  : Z * list (GestureType * Z) :=
  match cs with
  | [] => (lastGestureTimeRef, [])
  | (g, t) :: cs' =>
      let '(r1, out) := processGesture debounceMs lastGestureTimeRef g t in
      let '(r2, es) := run debounceMs r1 cs' in
      (r2, match out with Some e => e :: es | None => es end)
  end.

End SimpleHook.

(* ===================================================================== *)
(** * The presentation viewer *)
(* ===================================================================== *)

Module Viewer.
Import Debouncer.
Local Open Scope Z_scope.

(** [useMediaControl] (src/hooks/use-media-control.tsx). *)
Inductive MediaAction : Type := play | pause.

Definition handleMediaControl (action : MediaAction) (isPlaying : bool) : bool :=
  match action with
  | play => true
  | pause => false
  end.

Definition togglePlayPause (isPlaying : bool) : bool := negb isPlaying.

(** An entry of [gestureLog]. *)
Record LogEntry : Type := {
  log_gesture : Gesture;
  log_timestamp : Z;
  log_slideIndex : Z
}.

(** The state of [PresentationViewer]
    (src/components/presentation/presentation-viewer.tsx, lines 31-44) that
    gestures act on. *)
Record ViewerState : Type := {
  currentSlideIndex : Z;
  isPlaying : bool;
  gestureLog : list LogEntry
}.

Definition initialViewer : ViewerState :=
  {| currentSlideIndex := 0; isPlaying := false; gestureLog := [] |}.

(** [prev.slice(-n)]: the last [n] entries, or all of them. *)
Definition sliceLast {A : Type} (n : nat) (l : list A) : list A :=
  skipn (length l - n) l.

(** [handleGestureDetected] (lines 58-176).  [presentation] is the number of
    slides of the loaded presentation, [None] while there is none; [now] is
    [Date.now()].  The result is the new state and the title of the toast
    shown. *)
Definition handleGestureDetected (presentation : option Z) (gesture : GestureType)
    (now : Z) (v : ViewerState) : ViewerState * option string :=
  match presentation, gesture with
  | Some slides, Some g =>
      let log :=
        sliceLast 9 (gestureLog v)
        ++ [{| log_gesture := g; log_timestamp := now;
               log_slideIndex := currentSlideIndex v |}] in
      match g with
      | SWIPE_LEFT =>
          if 0 <? currentSlideIndex v
          then ({| currentSlideIndex := currentSlideIndex v - 1;
                   isPlaying := isPlaying v; gestureLog := log |},
                Some "Previous slide"%string)
          else ({| currentSlideIndex := currentSlideIndex v;
                   isPlaying := isPlaying v; gestureLog := log |},
                Some "Already at first slide"%string)
      | SWIPE_RIGHT =>
          if currentSlideIndex v <? slides - 1
          then ({| currentSlideIndex := currentSlideIndex v + 1;
                   isPlaying := isPlaying v; gestureLog := log |},
                Some "Next slide"%string)
          else ({| currentSlideIndex := currentSlideIndex v;
                   isPlaying := isPlaying v; gestureLog := log |},
                Some "Already at last slide"%string)
      | OPEN_PALM =>
          ({| currentSlideIndex := currentSlideIndex v;
              isPlaying := handleMediaControl play (isPlaying v);
              gestureLog := log |}, Some "Playing"%string)
      | CLOSED_FIST =>
          ({| currentSlideIndex := currentSlideIndex v;
              isPlaying := handleMediaControl pause (isPlaying v);
              gestureLog := log |}, Some "Paused"%string)
      | THUMB_UP =>
          ({| currentSlideIndex := currentSlideIndex v;
              isPlaying := isPlaying v; gestureLog := log |},
           Some "Thumbs up!"%string)
      | POINTING =>
          ({| currentSlideIndex := currentSlideIndex v;
              isPlaying := isPlaying v; gestureLog := log |},
           Some "Pointing detected"%string)
      end
  | _, _ => (v, None)
  end.

(** The [switch] of the viewer's own [handleKeyDown] (lines 183-213), which
    compares [e.key] as it is. *)
Definition viewerKeyGesture (key : string) : GestureType :=
  if String.eqb key "ArrowLeft" then Some SWIPE_LEFT
  else if String.eqb key "ArrowRight" then Some SWIPE_RIGHT
  else if String.eqb key "o" || String.eqb key "O" then Some OPEN_PALM
  else if String.eqb key "c" || String.eqb key "C" then Some CLOSED_FIST
  else if String.eqb key "p" || String.eqb key "P" then Some POINTING
  else if String.eqb key "t" || String.eqb key "T" then Some THUMB_UP
  else None.

(** The viewer's [handleKeyDown] (lines 180-214). *)
Definition handleKeyDown (presentation : option Z) (key : string) (now : Z)
    (v : ViewerState) : ViewerState * option string :=
  match presentation, viewerKeyGesture key with
  | Some _, Some g => handleGestureDetected presentation (Some g) now v
  | _, _ => (v, None)
  end.

(** [goToPreviousSlide] and [goToNextSlide] (lines 247-259). *)
Definition goToPreviousSlide (presentation : option Z) (v : ViewerState) : ViewerState :=
  match presentation with
  | Some _ =>
      if 0 <? currentSlideIndex v
      then {| currentSlideIndex := currentSlideIndex v - 1;
              isPlaying := isPlaying v; gestureLog := gestureLog v |}
      else v
  | None => v
  end.

Definition goToNextSlide (presentation : option Z) (v : ViewerState) : ViewerState :=
  match presentation with
  | Some slides =>
      if currentSlideIndex v <? slides - 1
      then {| currentSlideIndex := currentSlideIndex v + 1;
              isPlaying := isPlaying v; gestureLog := gestureLog v |}
      else v
  | None => v
  end.

(** [clearGestureLog] (lines 242-244). *)
Definition clearGestureLog (v : ViewerState) : ViewerState :=
  {| currentSlideIndex := currentSlideIndex v; isPlaying := isPlaying v;
     gestureLog := [] |}.

(** What can happen to the viewer: a gesture from the detector, a key, one of
    the two navigation buttons, the play/pause toggle, clearing the log. *)
Inductive Input : Type :=
| GestureIn (g : GestureType) (now : Z)
| KeyIn (key : string) (now : Z)
| PreviousButton
| NextButton
| ToggleButton
| ClearLog.

Definition viewerStep (presentation : option Z) (v : ViewerState) (i : Input)
  : ViewerState :=
  match i with
  | GestureIn g now => fst (handleGestureDetected presentation g now v)
  | KeyIn key now => fst (handleKeyDown presentation key now v)
  | PreviousButton => goToPreviousSlide presentation v
  | NextButton => goToNextSlide presentation v
  | ToggleButton =>
      {| currentSlideIndex := currentSlideIndex v;
         isPlaying := togglePlayPause (isPlaying v); gestureLog := gestureLog v |}
  | ClearLog => clearGestureLog v
  end.

Definition viewerRun (presentation : option Z) (v : ViewerState) (ins : list Input)
  : ViewerState := fold_left (viewerStep presentation) ins v.

(** The last play or pause a sequence of gestures asks for, if any. *)
Fixpoint lastMediaGesture (gs : list GestureType) : option bool :=
  match gs with
  | [] => None
  | g :: gs' =>
      match lastMediaGesture gs' with
      | Some b => Some b
      | None =>
          match g with
          | Some OPEN_PALM => Some true
          | Some CLOSED_FIST => Some false
          | _ => None
          end
      end
  end.

End Viewer.

(* ===================================================================== *)
(** * Properties of the debouncer *)
(* ===================================================================== *)

Module DebouncerFacts.
Import Debouncer.
Local Open Scope Z_scope.

Lemma Gesture_eqb_eq (a b : Gesture) : Gesture_eqb a b = true <-> a = b.
Proof. destruct a, b; simpl; split; congruence. Qed.

Lemma GestureType_eqb_eq (a b : GestureType) : GestureType_eqb a b = true <-> a = b.
Proof.
  destruct a as [a|], b as [b|]; simpl; try (split; congruence).
  rewrite Gesture_eqb_eq. split; congruence.
Qed.

Section Run.
Variable o : GestureDetectionOptions.

(** The three ways out of [processGesture]. *)
Lemma processGesture_cases (r : Refs) (c : Call) :
  (now c - lastGestureTimeRef r < debounceMs o /\ processGesture o r c = (r, Debounced))
  \/ (debounceMs o <= now c - lastGestureTimeRef r
      /\ gesture c = lastGestureTypeRef r
      /\ 2 * (now c - lastGestureTimeRef r) < 3 * debounceMs o
      /\ processGesture o r c = (r, SameGestureDebounced))
  \/ (debounceMs o <= now c - lastGestureTimeRef r
      /\ (gesture c = lastGestureTypeRef r ->
          3 * debounceMs o <= 2 * (now c - lastGestureTimeRef r))
      /\ exists e, ev_type e = gesture c /\ ev_timestamp e = now c
                   /\ ev_confidence e = confidence c
                   /\ processGesture o r c = (refsAfter e, Accepted e (hasCallback c))).
Proof.
  unfold processGesture.
  destruct (Z.ltb_spec (now c - lastGestureTimeRef r) (debounceMs o)) as [Hlt|Hge].
  - left. split; [lia | reflexivity].
  - destruct (GestureType_eqb (gesture c) (lastGestureTypeRef r)) eqn:Heq; simpl.
    + apply GestureType_eqb_eq in Heq.
      destruct (Z.ltb_spec (2 * (now c - lastGestureTimeRef r)) (3 * debounceMs o)).
      * right; left. repeat split; trivial.
      * right; right. repeat split; trivial.
        exists {| ev_type := gesture c; ev_confidence := confidence c;
                  ev_timestamp := now c |}.
        repeat split; reflexivity.
    + right; right. repeat split; trivial.
      * intros E. apply GestureType_eqb_eq in E. congruence.
      * exists {| ev_type := gesture c; ev_confidence := confidence c;
                  ev_timestamp := now c |}.
        repeat split; reflexivity.
Qed.

Lemma emitted_nil (r : Refs) : emitted o r [] = [].
Proof. reflexivity. Qed.

Lemma emitted_cons (r : Refs) (c : Call) (cs : list Call) :
  emitted o r (c :: cs)
  = emittedOf (snd (processGesture o r c)) ++ emitted o (fst (processGesture o r c)) cs.
Proof.
  unfold emitted; simpl.
  destruct (processGesture o r c) as [r1 out]; simpl.
  destruct (run o r1 cs); reflexivity.
Qed.

(** A call either leaves the refs and the trace alone, or emits one event and
    restarts from the refs that event leaves. *)
Lemma emitted_step (r : Refs) (c : Call) (cs : list Call) :
  emitted o r (c :: cs) = emitted o r cs
  \/ exists e,
       emitted o r (c :: cs) = e :: emitted o (refsAfter e) cs
       /\ debounceMs o <= ev_timestamp e - lastGestureTimeRef r
       /\ (ev_type e = lastGestureTypeRef r ->
           3 * debounceMs o <= 2 * (ev_timestamp e - lastGestureTimeRef r)).
Proof.
  rewrite emitted_cons.
  destruct (processGesture_cases r c)
    as [[_ E] | [(_ & _ & _ & E) | (Hge & Hsame & e & Ht & Hn & _ & E)]];
    rewrite E; simpl; auto.
  right. exists e. rewrite Ht, Hn. auto.
Qed.

(** What follows an emitted event in the trace is the trace of the remaining
    calls, run from the refs that event left. *)
Lemma emitted_split (cs : list Call) :
  forall (r : Refs) (l1 : list GestureEvent) (e : GestureEvent) (rest : list GestureEvent),
    emitted o r cs = l1 ++ e :: rest ->
    exists cs', rest = emitted o (refsAfter e) cs'.
Proof.
  induction cs as [|c cs IH]; intros r l1 e rest H.
  - rewrite emitted_nil in H. destruct l1; discriminate.
  - destruct (emitted_step r c cs) as [E | (e0 & E & _)]; rewrite E in H.
    + eauto.
    + destruct l1 as [|e1 l1]; simpl in H; injection H as -> H.
      * exists cs. congruence.
      * eauto.
Qed.

Hypothesis debounce_nonneg : 0 <= debounceMs o.

(** Every emitted event is at least [debounceMs] after the time in the refs
    the run started from. *)
Lemma emitted_after (cs : list Call) :
  forall (r : Refs) (e : GestureEvent),
    In e (emitted o r cs) ->
    debounceMs o <= ev_timestamp e - lastGestureTimeRef r.
Proof.
  induction cs as [|c cs IH]; intros r e Hin.
  - rewrite emitted_nil in Hin. destruct Hin.
  - destruct (emitted_step r c cs) as [E | (e0 & E & Hge & _)]; rewrite E in Hin.
    + auto.
    + destruct Hin as [<- | Hin]; [assumption|].
      apply IH in Hin. simpl in Hin. lia.
Qed.

(** A run of emitted events that all repeat the type in the refs: each of
    them is at least one and a half windows after the time in the refs. *)
Lemma same_gesture_chain (cs : list Call) :
  forall (r : Refs) (mid : list GestureEvent) (e2 : GestureEvent) (l : list GestureEvent),
    emitted o r cs = mid ++ e2 :: l ->
    Forall (fun e => ev_type e = lastGestureTypeRef r) mid ->
    ev_type e2 = lastGestureTypeRef r ->
    3 * debounceMs o <= 2 * (ev_timestamp e2 - lastGestureTimeRef r).
Proof.
  induction cs as [|c cs IH]; intros r mid e2 l H Hmid H2.
  - rewrite emitted_nil in H. destruct mid; discriminate.
  - destruct (emitted_step r c cs) as [E | (e0 & E & Hge & Hsame)]; rewrite E in H.
    + eauto.
    + destruct mid as [|m mid]; simpl in H; injection H as <- H.
      * auto.
      * inversion Hmid as [|? ? Hm Hmid']; subst.
        specialize (Hsame Hm).
        assert (3 * debounceMs o <= 2 * (ev_timestamp e2 - ev_timestamp e0)) as Hrec.
        { apply (IH (refsAfter e0) mid e2 l H); simpl.
          - eapply List.Forall_impl; [|exact Hmid']. simpl. congruence.
          - congruence. }
        lia.
Qed.

(** Two emitted events of one type are one and a half windows apart even
    when other events were emitted between them: each event in between adds a
    whole window. *)
Lemma same_type_pair_extended (r : Refs) (cs : list Call)
    (l1 : list GestureEvent) (e1 : GestureEvent) (l2 : list GestureEvent)
    (e2 : GestureEvent) (l3 : list GestureEvent) :
  emitted o r cs = l1 ++ e1 :: l2 ++ e2 :: l3 ->
  ev_type e2 = ev_type e1 ->
  3 * debounceMs o <= 2 * (ev_timestamp e2 - ev_timestamp e1).
Proof.
  intros H H2.
  destruct (emitted_split cs r l1 e1 _ H) as [cs' Hrest].
  destruct l2 as [|m l2].
  - exact (same_gesture_chain cs' (refsAfter e1) [] e2 l3 (eq_sym Hrest)
             (List.Forall_nil _) H2).
  - assert (debounceMs o <= ev_timestamp m - ev_timestamp e1) as Hm.
    { apply (emitted_after cs' (refsAfter e1) m).
      rewrite <- Hrest. left. reflexivity. }
    destruct (emitted_split cs' (refsAfter e1) [] m (l2 ++ e2 :: l3) (eq_sym Hrest))
      as [cs'' Hrest'].
    assert (debounceMs o <= ev_timestamp e2 - ev_timestamp m) as H2m.
    { apply (emitted_after cs'' (refsAfter m) e2).
      rewrite <- Hrest'. apply in_or_app. right. left. reflexivity. }
    lia.
Qed.

End Run.

(** Two emitted events, the first before the second in the trace: the second
    is at least [debounceMs] later (and, for a negative [debounceMs], the
    distance is trivially above it). *)
Lemma emitted_pair_apart (o : GestureDetectionOptions) (r : Refs) (cs : list Call)
    (l1 : list GestureEvent) (e1 : GestureEvent) (l2 : list GestureEvent)
    (e2 : GestureEvent) (l3 : list GestureEvent) :
  emitted o r cs = l1 ++ e1 :: l2 ++ e2 :: l3 ->
  debounceMs o <= Z.abs (ev_timestamp e2 - ev_timestamp e1)
  /\ (0 <= debounceMs o -> debounceMs o <= ev_timestamp e2 - ev_timestamp e1).
Proof.
  intros H.
  assert (0 <= debounceMs o -> debounceMs o <= ev_timestamp e2 - ev_timestamp e1) as Hdir.
  { intros Hnn. destruct (emitted_split o cs r l1 e1 _ H) as [cs' Hrest].
    apply (emitted_after o Hnn cs' (refsAfter e1) e2).
    rewrite <- Hrest. apply in_or_app. right. left. reflexivity. }
  split; [|exact Hdir]. lia.
Qed.

(** C1.  For every sequence of calls to [processGesture], from any refs (a
    fresh debouncer is [initialRefs]) and for any [debounceMs], two emitted
    events of the same gesture type have timestamps at least [debounceMs]
    apart; for a non-negative [debounceMs] the later one in the trace is the
    later one in time. *)
Theorem debounce_invariant_same_type
    (o : GestureDetectionOptions) (r : Refs) (cs : list Call)
    (l1 : list GestureEvent) (e1 : GestureEvent) (l2 : list GestureEvent)
    (e2 : GestureEvent) (l3 : list GestureEvent) :
  emitted o r cs = l1 ++ e1 :: l2 ++ e2 :: l3 ->
  ev_type e1 = ev_type e2 ->
  debounceMs o <= Z.abs (ev_timestamp e2 - ev_timestamp e1)
  /\ (0 <= debounceMs o -> debounceMs o <= ev_timestamp e2 - ev_timestamp e1).
Proof.
  intros H _. exact (emitted_pair_apart o r cs l1 e1 l2 e2 l3 H).
Qed.

Lemma debounce_invariant_same_type_witness :
  let cs := [candidate SWIPE_LEFT 1 1000; candidate SWIPE_LEFT 1 1500;
             candidate OPEN_PALM 1 1900; candidate SWIPE_LEFT 1 2700] in
  let e1 := eventOf (candidate SWIPE_LEFT 1 1000) in
  let e2 := eventOf (candidate SWIPE_LEFT 1 2700) in
  emitted defaultOptions initialRefs cs
    = [] ++ e1 :: [eventOf (candidate OPEN_PALM 1 1900)] ++ e2 :: []
  /\ ev_type e1 = ev_type e2
  /\ 800 <= Z.abs (2700 - 1000).
Proof.
  split; [reflexivity|]. split; [reflexivity|].
  exact (proj1 (debounce_invariant_same_type defaultOptions initialRefs
           [candidate SWIPE_LEFT 1 1000; candidate SWIPE_LEFT 1 1500;
            candidate OPEN_PALM 1 1900; candidate SWIPE_LEFT 1 2700]
           [] (eventOf (candidate SWIPE_LEFT 1 1000))
           [eventOf (candidate OPEN_PALM 1 1900)]
           (eventOf (candidate SWIPE_LEFT 1 2700)) [] eq_refl eq_refl)).
Defined.

(** C2.  For every sequence of calls, two emitted events of the same gesture
    type with no event of another type emitted between them have timestamps
    at least [debounceMs * 1.5] apart (written [3 * debounceMs <= 2 * distance]). *)
Theorem extended_same_gesture_invariant
    (o : GestureDetectionOptions) (r : Refs) (cs : list Call)
    (l1 : list GestureEvent) (e1 : GestureEvent) (mid : list GestureEvent)
    (e2 : GestureEvent) (l3 : list GestureEvent) :
  emitted o r cs = l1 ++ e1 :: mid ++ e2 :: l3 ->
  ev_type e2 = ev_type e1 ->
  Forall (fun e => ev_type e = ev_type e1) mid ->
  3 * debounceMs o <= 2 * Z.abs (ev_timestamp e2 - ev_timestamp e1).
Proof.
  intros H H2 Hmid.
  destruct (Z.lt_ge_cases (debounceMs o) 0) as [Hneg | Hnn]; [lia|].
  destruct (emitted_split o cs r l1 e1 _ H) as [cs' Hrest].
  pose proof (same_gesture_chain o Hnn cs' (refsAfter e1) mid e2 l3
                (eq_sym Hrest) Hmid H2) as Hchain.
  simpl in Hchain. lia.
Qed.

Lemma extended_same_gesture_invariant_witness :
  let cs := [candidate THUMB_UP 1 1000; candidate THUMB_UP 1 2100;
             candidate THUMB_UP 1 2200; candidate THUMB_UP 1 3400] in
  let e1 := eventOf (candidate THUMB_UP 1 1000) in
  let e2 := eventOf (candidate THUMB_UP 1 3400) in
  emitted defaultOptions initialRefs cs
    = [] ++ e1 :: [eventOf (candidate THUMB_UP 1 2200)] ++ e2 :: []
  /\ 3 * 800 <= 2 * Z.abs (3400 - 1000).
Proof.
  split; [reflexivity|].
  apply (extended_same_gesture_invariant defaultOptions initialRefs
           [candidate THUMB_UP 1 1000; candidate THUMB_UP 1 2100;
            candidate THUMB_UP 1 2200; candidate THUMB_UP 1 3400]
           [] (eventOf (candidate THUMB_UP 1 1000))
           [eventOf (candidate THUMB_UP 1 2200)]
           (eventOf (candidate THUMB_UP 1 3400)) []).
  - reflexivity.
  - reflexivity.
  - repeat constructor.
Defined.

(** C3.  [processGesture] reads neither [confidence] nor
    [confidenceThreshold], and has no test for [null]: on a fresh debouncer
    with the default options, a candidate of confidence 0.1 (below the
    threshold 0.7) is accepted, the callback is invoked and both refs are
    overwritten; so is a [null] candidate. *)
Theorem low_confidence_and_none_are_accepted :
  let low := candidate SWIPE_LEFT (1 # 10) 1000000 in
  let none := {| gesture := None; confidence := 9 # 10; now := 1000000;
                 hasCallback := true |} in
  (confidence low < confidenceThreshold defaultOptions)%Q
  /\ processGesture defaultOptions initialRefs low
     = ({| lastGestureTimeRef := 1000000; lastGestureTypeRef := Some SWIPE_LEFT |},
        Accepted (eventOf low) true)
  /\ processGesture defaultOptions initialRefs none
     = ({| lastGestureTimeRef := 1000000; lastGestureTypeRef := None |},
        Accepted (eventOf none) true).
Proof. repeat split. Qed.

(** [processGesture] does not depend on the confidence of the candidate nor
    on the configured threshold, except for the confidence copied into the
    emitted event. *)
Lemma processGesture_ignores_confidence
    (d : Z) (th th' : Q) (sm : Z) (r : Refs) (g : GestureType) (q q' : Q)
    (t : Z) (cb : bool) :
  let o := {| debounceMs := d; confidenceThreshold := th; smoothingFrames := sm |} in
  let o' := {| debounceMs := d; confidenceThreshold := th'; smoothingFrames := sm |} in
  let c := {| gesture := g; confidence := q; now := t; hasCallback := cb |} in
  let c' := {| gesture := g; confidence := q'; now := t; hasCallback := cb |} in
  fst (processGesture o r c) = fst (processGesture o' r c')
  /\ suppressed (snd (processGesture o r c)) = suppressed (snd (processGesture o' r c')).
Proof.
  unfold processGesture; simpl.
  destruct (t - lastGestureTimeRef r <? d); [split; reflexivity|].
  destruct (GestureType_eqb g (lastGestureTypeRef r)
            && (2 * (t - lastGestureTimeRef r) <? 3 * d))%bool; split; reflexivity.
Qed.

(** C4, as the specification states it, fails on the code.  A fresh debouncer
    has [lastGestureTime = 0], so a candidate at time 0 is inside the window;
    1300 ms after a SWIPE_LEFT the extended window of 1200 ms is over, so the
    repeat is accepted; and 400 ms after an OPEN_PALM the plain window of
    800 ms still holds, so the candidate is debounced.  The last two hold
    from any base time. *)
Lemma scenario_as_stated_fails :
  outcome defaultOptions initialRefs (candidate SWIPE_LEFT 1 0) = Debounced
  /\ outcome defaultOptions (refsAfter (eventOf (candidate SWIPE_LEFT 1 0)))
       (candidate SWIPE_LEFT 1 1300)
     = Accepted (eventOf (candidate SWIPE_LEFT 1 1300)) true
  /\ outcome defaultOptions (refsAfter (eventOf (candidate OPEN_PALM 1 900)))
       (candidate SWIPE_LEFT 1 1300)
     = Debounced
  /\ ~ scenario_as_stated 0
  /\ ~ scenario_as_stated 1700000000000.
Proof.
  repeat split.
  - intros (_ & _ & H & _). discriminate H.
  - intros (_ & _ & H & _). discriminate H.
Qed.

(** C4, amended.  With [debounceMs = 800], a fresh debouncer and times counted
    from a base [t0 >= 800]: the SWIPE_LEFT at [t0] is emitted; the one at
    [t0 + 500] is debounced; with [t0] the only prior emission, the one at
    [t0 + 1300] is emitted; and after an OPEN_PALM emitted at [t0 + 900], the
    one at [t0 + 1300] is debounced. *)
Theorem scenario_amended (t0 : Z) :
  800 <= t0 ->
  let o := defaultOptions in
  let swipe t := candidate SWIPE_LEFT 1 t in
  let palm t := candidate OPEN_PALM 1 t in
  processGesture o initialRefs (swipe t0)
    = (refsAfter (eventOf (swipe t0)), Accepted (eventOf (swipe t0)) true)
  /\ processGesture o (refsAfter (eventOf (swipe t0))) (swipe (t0 + 500))
     = (refsAfter (eventOf (swipe t0)), Debounced)
  /\ processGesture o (refsAfter (eventOf (swipe t0))) (swipe (t0 + 1300))
     = (refsAfter (eventOf (swipe (t0 + 1300))),
        Accepted (eventOf (swipe (t0 + 1300))) true)
  /\ processGesture o (refsAfter (eventOf (swipe t0))) (palm (t0 + 900))
     = (refsAfter (eventOf (palm (t0 + 900))),
        Accepted (eventOf (palm (t0 + 900))) true)
  /\ processGesture o (refsAfter (eventOf (palm (t0 + 900)))) (swipe (t0 + 1300))
     = (refsAfter (eventOf (palm (t0 + 900))), Debounced)
  /\ emitted o initialRefs [swipe t0; swipe (t0 + 500); swipe (t0 + 1300)]
     = [eventOf (swipe t0); eventOf (swipe (t0 + 1300))]
  /\ emitted o initialRefs [swipe t0; palm (t0 + 900); swipe (t0 + 1300)]
     = [eventOf (swipe t0); eventOf (palm (t0 + 900))].
Proof.
  intros Ht0 o swipe palm.
  assert (forall r c, now c - lastGestureTimeRef r < 800 ->
                      processGesture o r c = (r, Debounced)) as Hdeb.
  { intros r c Hlt.
    destruct (processGesture_cases o r c)
      as [[_ E] | [(Hge & _) | (Hge & _)]]; [exact E | | ];
      change (debounceMs o) with 800 in Hge; lia. }
  assert (forall r c, 800 <= now c - lastGestureTimeRef r ->
                      (gesture c <> lastGestureTypeRef r
                       \/ 2400 <= 2 * (now c - lastGestureTimeRef r)) ->
                      processGesture o r c
                      = (refsAfter (eventOf c), Accepted (eventOf c) (hasCallback c)))
    as Hacc.
  { intros r c Hge Hor.
    destruct (processGesture_cases o r c)
      as [[Hlt _] | [(_ & Heq & Hlt & _) | (_ & _ & e & Ht & Hn & Hq & E)]];
      change (debounceMs o) with 800 in *.
    - lia.
    - destruct Hor; [contradiction | lia].
    - rewrite E. destruct e; simpl in *; subst. reflexivity. }
  assert (E1 : processGesture o initialRefs (swipe t0)
               = (refsAfter (eventOf (swipe t0)), Accepted (eventOf (swipe t0)) true)).
  { apply Hacc; simpl; [lia | left; discriminate]. }
  assert (E2 : processGesture o (refsAfter (eventOf (swipe t0))) (swipe (t0 + 500))
               = (refsAfter (eventOf (swipe t0)), Debounced)).
  { apply Hdeb; simpl; lia. }
  assert (E3 : processGesture o (refsAfter (eventOf (swipe t0))) (swipe (t0 + 1300))
               = (refsAfter (eventOf (swipe (t0 + 1300))),
                  Accepted (eventOf (swipe (t0 + 1300))) true)).
  { apply Hacc; simpl; [lia | right; lia]. }
  assert (E4 : processGesture o (refsAfter (eventOf (swipe t0))) (palm (t0 + 900))
               = (refsAfter (eventOf (palm (t0 + 900))),
                  Accepted (eventOf (palm (t0 + 900))) true)).
  { apply Hacc; simpl; [lia | left; discriminate]. }
  assert (E5 : processGesture o (refsAfter (eventOf (palm (t0 + 900))))
                 (swipe (t0 + 1300))
               = (refsAfter (eventOf (palm (t0 + 900))), Debounced)).
  { apply Hdeb; simpl; lia. }
  repeat split; trivial.
  - unfold emitted; simpl run. rewrite E1, E2, E3. reflexivity.
  - unfold emitted; simpl run. rewrite E1, E4, E5. reflexivity.
Qed.

Lemma scenario_amended_witness :
  800 <= 1700000000000
  /\ emitted defaultOptions initialRefs
       [candidate SWIPE_LEFT 1 1700000000000;
        candidate OPEN_PALM 1 (1700000000000 + 900);
        candidate SWIPE_LEFT 1 (1700000000000 + 1300)]
     = [eventOf (candidate SWIPE_LEFT 1 1700000000000);
        eventOf (candidate OPEN_PALM 1 (1700000000000 + 900))].
Proof.
  split; [lia|].
  apply (scenario_amended 1700000000000). lia.
Defined.

(** C10.  Whatever their gesture types, two emitted events have timestamps at
    least [debounceMs] apart; and a candidate that arrives less than
    [debounceMs] after [lastGestureTime] is debounced whatever its type, the
    refs staying as they were. *)
Theorem debounce_invariant_any_type
    (o : GestureDetectionOptions) (r : Refs) (cs : list Call)
    (l1 : list GestureEvent) (e1 : GestureEvent) (l2 : list GestureEvent)
    (e2 : GestureEvent) (l3 : list GestureEvent) :
  emitted o r cs = l1 ++ e1 :: l2 ++ e2 :: l3 ->
  (debounceMs o <= Z.abs (ev_timestamp e2 - ev_timestamp e1)
   /\ (0 <= debounceMs o -> debounceMs o <= ev_timestamp e2 - ev_timestamp e1))
  /\ (forall (r0 : Refs) (c : Call),
        now c - lastGestureTimeRef r0 < debounceMs o ->
        processGesture o r0 c = (r0, Debounced)).
Proof.
  intros H. split.
  - exact (emitted_pair_apart o r cs l1 e1 l2 e2 l3 H).
  - intros r0 c Hlt.
    destruct (processGesture_cases o r0 c)
      as [[_ E] | [(Hge & _) | (Hge & _)]]; [exact E | lia | lia].
Qed.

Lemma debounce_invariant_any_type_witness :
  let cs := [candidate SWIPE_LEFT 1 1000; candidate OPEN_PALM 1 1700;
             candidate OPEN_PALM 1 1800; candidate POINTING 1 2600] in
  emitted defaultOptions initialRefs cs
    = [] ++ eventOf (candidate SWIPE_LEFT 1 1000) :: []
         ++ eventOf (candidate OPEN_PALM 1 1800) :: [eventOf (candidate POINTING 1 2600)]
  /\ 800 <= Z.abs (1800 - 1000)
  /\ processGesture defaultOptions
       (refsAfter (eventOf (candidate SWIPE_LEFT 1 1000))) (candidate OPEN_PALM 1 1700)
     = (refsAfter (eventOf (candidate SWIPE_LEFT 1 1000)), Debounced).
Proof.
  split; [reflexivity|].
  destruct (debounce_invariant_any_type defaultOptions initialRefs
              [candidate SWIPE_LEFT 1 1000; candidate OPEN_PALM 1 1700;
               candidate OPEN_PALM 1 1800; candidate POINTING 1 2600]
              [] (eventOf (candidate SWIPE_LEFT 1 1000)) []
              (eventOf (candidate OPEN_PALM 1 1800))
              [eventOf (candidate POINTING 1 2600)] eq_refl)
    as [[Habs _] Hwin].
  split; [exact Habs|].
  apply Hwin. reflexivity.
Defined.

End DebouncerFacts.

(* ===================================================================== *)
(** * Comparisons of numbers *)
(* ===================================================================== *)

Module ComparisonFacts.
Import Landmarks.
Local Open Scope Q_scope.

Lemma Qltb_lt (a b : Q) : Qltb a b = true <-> a < b.
Proof.
  unfold Qltb. rewrite negb_true_iff. split.
  - intros H. apply Qnot_le_lt. intros Hle.
    apply Qle_bool_iff in Hle. congruence.
  - intros Hlt. destruct (Qle_bool b a) eqn:E; [|reflexivity].
    apply Qle_bool_iff in E. lra.
Qed.

Lemma Qltb_ge (a b : Q) : Qltb a b = false <-> b <= a.
Proof.
  unfold Qltb. rewrite negb_false_iff. apply Qle_bool_iff.
Qed.

End ComparisonFacts.

(* ===================================================================== *)
(** * Properties of the classifier *)
(* ===================================================================== *)

Module ClassifierFacts.
Import Landmarks Classifier ComparisonFacts.
Local Open Scope Q_scope.

(** A hand of at least 21 landmarks has the six landmarks [detectGesture]
    reads. *)
Ltac landmark lm i :=
  let p := fresh "p" in
  let E := fresh "E" in
  destruct (lm !! i) as [p|] eqn:E;
  [ | apply lookup_ge_None in E; lia ].

Ltac compare_all :=
  repeat match goal with
         | |- context [Qltb ?a ?b] =>
             let E := fresh "C" in
             destruct (Qltb a b) eqn:E;
             [ apply Qltb_lt in E | apply Qltb_ge in E ]; simpl
         end.

Ltac rule_holds := repeat split; solve [reflexivity | lra].
Ltac rule_fails := let H := fresh in intros H; decompose [and] H; lra.

(** [detectGesture] on a full hand: the first of the three rules that holds
    names the result, and the result is [null] when none does. *)
Lemma detectGesture_rules (lm : Hand) :
  (21 <= length lm)%nat ->
  (thumbsUpRule lm /\ detectGesture (Some lm) = Some "thumbs_up"%string)
  \/ (~ thumbsUpRule lm /\ pointingRule lm
      /\ detectGesture (Some lm) = Some "pointing"%string)
  \/ (~ thumbsUpRule lm /\ ~ pointingRule lm /\ openPalmRule lm
      /\ detectGesture (Some lm) = Some "open_palm"%string)
  \/ (~ thumbsUpRule lm /\ ~ pointingRule lm /\ ~ openPalmRule lm
      /\ detectGesture (Some lm) = None).
Proof.
  intros Hlen.
  unfold detectGesture, thumbsUpRule, pointingRule, openPalmRule,
    thumbExtension, indexExtension, middleExtension, ringExtension,
    pinkyExtension, extension, yAt.
  destruct (Nat.ltb_spec (length lm) 21) as [Hlt|_]; [lia|].
  landmark lm 0%nat. landmark lm 4%nat. landmark lm 8%nat.
  landmark lm 12%nat. landmark lm 16%nat. landmark lm 20%nat.
  unfold Qgtb. compare_all.
  all: first [ left; rule_holds
          | right; left; split; [rule_fails | rule_holds]
          | right; right; left; split; [rule_fails | split; [rule_fails | rule_holds]]
          | right; right; right;
            split; [rule_fails | split; [rule_fails | split; [rule_fails | reflexivity]]] ].
Qed.

(** The result of [detectGesture] is one of its three labels or [null]. *)
Lemma detectGesture_range (l : option Hand) :
  detectGesture l = None
  \/ detectGesture l = Some "thumbs_up"%string
  \/ detectGesture l = Some "pointing"%string
  \/ detectGesture l = Some "open_palm"%string.
Proof.
  unfold detectGesture.
  destruct l as [lm|]; [|auto].
  destruct (length lm <? 21)%nat; [auto|].
  destruct (lm !! 0%nat), (lm !! 4%nat), (lm !! 8%nat), (lm !! 12%nat),
    (lm !! 16%nat), (lm !! 20%nat); auto.
  repeat match goal with
         | |- context [if ?b then _ else _] => destruct b
         end; auto.
Qed.

(** C7, as the specification states it, fails on the code: in [fistHand] all
    four non-thumb curls are 1/2, above a threshold of 2/5, none of the three
    higher-priority rules holds, and [detectGesture] returns [null]. *)
Lemma fist_is_not_classified :
  length fistHand = 21%nat
  /\ allCurlsExceed (2 # 5) fistHand
  /\ ~ thumbsUpRule fistHand
  /\ ~ pointingRule fistHand
  /\ ~ openPalmRule fistHand
  /\ detectGesture (Some fistHand) = None
  /\ detectGesture (Some fistHand) <> Some "closed_fist"%string.
Proof.
  split; [reflexivity|].
  split; [repeat split|].
  split; [intros (H & _); vm_compute in H; discriminate|].
  split; [intros (H & _); vm_compute in H; discriminate|].
  split; [intros (H & _); vm_compute in H; discriminate|].
  split; [reflexivity | discriminate].
Qed.

(** C7, amended.  [detectGesture] has no rule on the curls: a full hand whose
    four non-thumb curls all exceed a threshold, and on which none of the
    three rules holds, yields [null]; and no input yields a closed-fist
    label. *)
Theorem curled_fingers_yield_no_gesture (th : Q) (lm : Hand) :
  (21 <= length lm)%nat ->
  allCurlsExceed th lm ->
  ~ thumbsUpRule lm -> ~ pointingRule lm -> ~ openPalmRule lm ->
  detectGesture (Some lm) = None
  /\ (forall l : option Hand,
        detectGesture l <> Some "closed_fist"%string
        /\ detectGesture l <> Some "CLOSED_FIST"%string).
Proof.
  intros Hlen _ HT HP HO. split.
  - destruct (detectGesture_rules lm Hlen)
      as [[H _] | [(_ & H & _) | [(_ & _ & H & _) | (_ & _ & _ & E)]]];
      [contradiction | contradiction | contradiction | exact E].
  - intros l.
    destruct (detectGesture_range l) as [E | [E | [E | E]]];
      rewrite E; split; discriminate.
Qed.

Lemma curled_fingers_yield_no_gesture_witness :
  allCurlsExceed (2 # 5) fistHand /\ detectGesture (Some fistHand) = None.
Proof.
  assert (allCurlsExceed (2 # 5) fistHand) as Hcurl by (repeat split).
  split; [exact Hcurl|].
  apply (curled_fingers_yield_no_gesture (2 # 5) fistHand).
  - simpl. lia.
  - exact Hcurl.
  - intros (H & _); vm_compute in H; discriminate.
  - intros (H & _); vm_compute in H; discriminate.
  - intros (H & _); vm_compute in H; discriminate.
Defined.

End ClassifierFacts.

(* ===================================================================== *)
(** * Properties of the calibration collector *)
(* ===================================================================== *)

Module CalibrationFacts.
Import Landmarks Classifier Calibration ClassifierFacts.
Local Open Scope Q_scope.

(** Closed statements are settled by evaluation, conjunct by conjunct. *)
Ltac conjuncts := intros; repeat match goal with |- _ /\ _ => split end.
Ltac by_evaluation := conjuncts; vm_compute; reflexivity.

(** ** References never change *)

Lemma setKey_same (k : Key.t) (d : CalibrationData) : setKey k (getKey k d) d = d.
Proof. destruct k, d; reflexivity. Qed.

Lemma onHandLandmarks_refs (hl : option (list Hand)) (w : World) :
  calibrationData (modal (onHandLandmarks hl w)) = calibrationData (modal w).
Proof.
  unfold onHandLandmarks.
  destruct hl as [[|landmarks ?]|]; try reflexivity.
  destruct (currentGesture (modal w)); try reflexivity.
  destruct (negb (isCollecting (modal w))); try reflexivity.
  destruct (length landmarks <? 21)%nat; try reflexivity.
  destruct (addSample _ _ _ _); try reflexivity.
  destruct (samplesNeeded <=? S (samplesCollected (modal w)))%nat; reflexivity.
Qed.

(** Every reference the component holds is the one held by
    [EMPTY_CALIBRATION_DATA]. *)
Lemma reachable_refs (w : World) :
  reachable w -> calibrationData (modal w) = EMPTY_CALIBRATION_DATA.
Proof.
  induction 1 as [|hl w _ IH|w _ IH|n w _ IH|w _ IH|w _ IH|w _ IH|w _ IH].
  - reflexivity.
  - rewrite onHandLandmarks_refs. exact IH.
  - exact IH.
  - unfold collectionTimeout. destruct (n <? samplesNeeded)%nat; exact IH.
  - unfold nextStep.
    destruct (currentStep (modal w) <? length CALIBRATION_STEPS - 1)%nat; exact IH.
  - unfold prevStep. destruct (0 <? currentStep (modal w))%nat; exact IH.
  - unfold resetStep. destruct (currentGesture (modal w)) as [k|]; simpl.
    + rewrite IH. apply setKey_same.
    + exact IH.
  - exact IH.
Qed.

Lemma resetStep_heap (w : World) : heap (resetStep w) = heap w.
Proof. unfold resetStep. destruct (currentGesture (modal w)); reflexivity. Qed.

Lemma resetStep_idle (w : World) : isIdle (modal (resetStep w)).
Proof.
  unfold resetStep, isIdle.
  destruct (currentGesture (modal w)); simpl; auto.
Qed.

(** Reset returns the step to Idle and leaves what every key denotes as it
    was: the reference it stores is the one already there, and the cell it
    points to is not written. *)
Lemma resetStep_keeps_step_data (w : World) (k : Key.t) :
  reachable w ->
  isIdle (modal (resetStep w)) /\ stepDataOf (resetStep w) k = stepDataOf w k.
Proof.
  intros Hw. split; [apply resetStep_idle|].
  unfold stepDataOf.
  rewrite (reachable_refs (resetStep w) (reach_reset w Hw)).
  rewrite (reachable_refs w Hw), resetStep_heap. reflexivity.
Qed.

(** C6.  On a fresh modal, three frames are collected at the thumb-up step
    and Reset is pressed: the step is Idle again, but its sample list and its
    running averages are what they were before Reset, not the initial empty
    values; the cell of [EMPTY_CALIBRATION_DATA] itself holds them. *)
Theorem reset_does_not_clear_samples :
  let w1 := feed 3 (Some [thumbHand]) collectingThumbUp in
  let w2 := resetStep w1 in
  isIdle (modal w2)
  /\ stepDataOf w2 Key.thumbUp = stepDataOf w1 Key.thumbUp
  /\ samplesOf <$> stepDataOf w2 Key.thumbUp = Some [thumbHand; thumbHand; thumbHand]
  /\ averagesAt w2 Key.thumbUp = Some [3 # 8; 3 # 16; 9 # 16]
  /\ stepDataOf w2 Key.thumbUp <> Some (emptyStep Key.thumbUp)
  /\ heap w2 !! getKey Key.thumbUp EMPTY_CALIBRATION_DATA = stepDataOf w2 Key.thumbUp.
Proof.
  conjuncts; try (vm_compute; reflexivity).
  - subst w2. apply resetStep_idle.
  - vm_compute. discriminate.
Qed.

(** ** The running average *)

Lemma lengthQ_app (samples : list Hand) (lm : Hand) :
  lengthQ (samples ++ [lm]) == lengthQ samples + 1.
Proof.
  unfold lengthQ. rewrite length_app, Nat2Z.inj_add, inject_Z_plus.
  reflexivity.
Qed.

Lemma lengthQ_nonneg (samples : list Hand) : 0 <= lengthQ samples.
Proof.
  unfold lengthQ. change 0 with (inject_Z 0). rewrite <- Zle_Qle. lia.
Qed.

(** One fold, when the stored average of [n] earlier samples of value [s] is
    [s * n / (n + 1)]: the divisor is [n + 2], not [n + 1]. *)
Lemma foldAverage_identical (avg s : Q) (samples : list Hand) (lm : Hand) :
  avg == s * lengthQ samples / (lengthQ samples + 1) ->
  foldAverage avg (lengthQ (samples ++ [lm])) s
  == s * lengthQ (samples ++ [lm]) / (lengthQ (samples ++ [lm]) + 1).
Proof.
  intros Havg. unfold foldAverage.
  rewrite Havg, lengthQ_app.
  pose proof (lengthQ_nonneg samples) as Hn.
  field. split; lra.
Qed.

(** The updater on the thumb-up cell, [n] times with the same hand, from a
    cell that holds the average of [length samples] such samples. *)
Lemma addSamples_thumbUp (n : nat) (lm : Hand) (wrist tip : Q) :
  lmY lm 0 = Some wrist -> lmY lm 4 = Some tip ->
  forall (h : Heap) (samples : list Hand) (a b c : Q),
    h !! 1%positive = Some (ThumbUpData samples a b c) ->
    a == (wrist - tip) * lengthQ samples / (lengthQ samples + 1) ->
    exists h' samples' a' b' c',
      addSamples n Key.thumbUp lm EMPTY_CALIBRATION_DATA h = Some h'
      /\ h' !! 1%positive = Some (ThumbUpData samples' a' b' c')
      /\ length samples' = (length samples + n)%nat
      /\ a' == (wrist - tip) * lengthQ samples' / (lengthQ samples' + 1).
Proof.
  intros Hw Ht. induction n as [|n IH]; intros h samples a b c Hcell Ha.
  - exists h, samples, a, b, c. simpl. rewrite Nat.add_0_r. auto.
  - edestruct (IH (<[1%positive :=
                      ThumbUpData (samples ++ [lm])
                        (foldAverage a (lengthQ (samples ++ [lm])) (wrist - tip))
                        (foldAverage b (lengthQ (samples ++ [lm])) tip)
                        (foldAverage c (lengthQ (samples ++ [lm])) wrist)]> h))
      as (h' & samples' & a' & b' & c' & E & Hcell' & Hlen & Ha').
    + apply lookup_insert_eq.
    + apply foldAverage_identical. exact Ha.
    + exists h', samples', a', b', c'. repeat split; trivial.
      * simpl. rewrite Hw, Ht. simpl. rewrite Hcell. simpl. exact E.
      * rewrite Hlen, length_app. simpl. lia.
Qed.

(** What the code computes from [n] identical samples fed to a fresh step:
    [n / (n + 1)] of the sample value. *)
Lemma average_of_identical_samples (n : nat) (lm : Hand) (wrist tip : Q) :
  lmY lm 0 = Some wrist -> lmY lm 4 = Some tip ->
  exists h samples a b c,
    addSamples n Key.thumbUp lm EMPTY_CALIBRATION_DATA moduleHeap = Some h
    /\ h !! 1%positive = Some (ThumbUpData samples a b c)
    /\ length samples = n
    /\ a == (wrist - tip) * inject_Z (Z.of_nat n) / (inject_Z (Z.of_nat n) + 1).
Proof.
  intros Hw Ht.
  destruct (addSamples_thumbUp n lm wrist tip Hw Ht moduleHeap [] 0 0 0)
    as (h & samples & a & b & c & E & Hcell & Hlen & Ha).
  - reflexivity.
  - unfold lengthQ. simpl. field.
  - exists h, samples, a, b, c. repeat split; trivial.
    unfold lengthQ in Ha. rewrite Hlen in Ha. exact Ha.
Qed.

(** C5.  On a fresh modal collecting at the thumb-up step, one frame whose
    thumb extension is 1/2 (wrist at 3/4, thumb tip at 1/4) leaves the running
    averages at 1/4, 1/8 and 3/8: half the sample, because the sample is pushed
    before [samples.length] is read.  Ten such frames leave 5/11, 5/22 and
    15/22: ten elevenths of the sample. *)
Theorem first_sample_average_is_halved :
  let w := onHandLandmarks (Some [thumbHand]) collectingThumbUp in
  lmY thumbHand 0 = Some (3 # 4)
  /\ lmY thumbHand 4 = Some (1 # 4)
  /\ samplesCollected (modal w) = 1%nat
  /\ averagesAt w Key.thumbUp = Some [1 # 4; 1 # 8; 3 # 8]
  /\ averagesAt (feed 10 (Some [thumbHand]) collectingThumbUp) Key.thumbUp
     = Some [5 # 11; 5 # 22; 15 # 22].
Proof. by_evaluation. Qed.

(** ** Handing the profile over *)

(** C8, as the specification states it, fails on the code.  Ten samples of
    thumb extension 11/20 are collected and Next is pressed through to the
    final step, where it hands the profile to [onCalibrationComplete]; the
    profile's thumb mean is 1/2.  A hand whose thumb is only 1/5 above the
    wrist fails the calibrated test with a tolerance of 1/20, and of 1/4,
    yet [detectGesture] still answers thumbs-up, by its constant 1/10. *)
Lemma calibrated_mean_is_not_used :
  currentStep (modal calibratedWorld) = 6%nat
  /\ snd (nextStep calibratedWorld)
     = [onCalibrationComplete (calibrationData (modal calibratedWorld)); onClose]
  /\ averagesAt calibratedWorld Key.thumbUp = Some [1 # 2; 5 # 22; 8 # 11]
  /\ spec_calibratedThumbTest (1 # 2) (1 # 20) (thumbRaisedBy (1 # 5)) = false
  /\ spec_calibratedThumbTest (1 # 2) (1 # 4) (thumbRaisedBy (1 # 5)) = false
  /\ detectGesture (Some (thumbRaisedBy (1 # 5))) = Some "thumbs_up"%string.
Proof. by_evaluation. Qed.

(** C8, amended.  Next on the final step calls [onCalibrationComplete] with
    the calibration data and then [onClose], leaving the modal as it is; and
    whatever the calibration holds, [detectGesture] decides on a full hand by
    its constants alone: 0.1 for the thumb, 0.05 for the index finger and the
    wrist line for the rest. *)
Theorem final_next_hands_over_and_constants_stay (w : World) (lm : Hand) :
  currentStep (modal w) = 6%nat ->
  (21 <= length lm)%nat ->
  nextStep w = (w, [onCalibrationComplete (calibrationData (modal w)); onClose])
  /\ (detectGesture (Some lm) = Some "thumbs_up"%string <-> thumbsUpRule lm)
  /\ (detectGesture (Some lm) = Some "pointing"%string
      <-> ~ thumbsUpRule lm /\ pointingRule lm)
  /\ (detectGesture (Some lm) = Some "open_palm"%string
      <-> ~ thumbsUpRule lm /\ ~ pointingRule lm /\ openPalmRule lm).
Proof.
  intros Hstep Hlen. split.
  - unfold nextStep. rewrite Hstep. reflexivity.
  - destruct (detectGesture_rules lm Hlen)
      as [(HT & E) | [(HT & HP & E) | [(HT & HP & HO & E) | (HT & HP & HO & E)]]];
      rewrite E;
      repeat match goal with
             | |- _ /\ _ => split
             | |- _ <-> _ => split
             end;
      intros; try discriminate; try reflexivity; tauto.
Qed.

Lemma final_next_hands_over_and_constants_stay_witness :
  snd (nextStep calibratedWorld)
  = [onCalibrationComplete (calibrationData (modal calibratedWorld)); onClose]
  /\ (detectGesture (Some (thumbRaisedBy (1 # 5))) = Some "thumbs_up"%string
      <-> thumbsUpRule (thumbRaisedBy (1 # 5))).
Proof.
  destruct (final_next_hands_over_and_constants_stay calibratedWorld
              (thumbRaisedBy (1 # 5))) as (E & HT & _).
  - reflexivity.
  - simpl. lia.
  - split; [rewrite E; reflexivity | exact HT].
Defined.

End CalibrationFacts.

(* ===================================================================== *)
(** * Properties of the swipe tracker *)
(* ===================================================================== *)

Module SwipeTrackerFacts.
Import Landmarks SwipeTracker ComparisonFacts.
Local Open Scope Z_scope.

(** While the cooldown lasts no frame yields a swipe: a frame with too few
    bright pixels yields nothing and leaves the counter, any other frame
    yields nothing and takes one off it. *)
Lemma cooldown_is_silent (fs : list ImageData) :
  forall r : Refs,
    Z.of_nat (length fs) <= gestureCooldownRef r ->
    Forall (fun s => s = none) (snd (frames r fs)).
Proof.
  induction fs as [|f fs IH]; intros r Hlen; simpl.
  - constructor.
  - unfold detectSwipeGesture.
    destruct (brightPixels f) as [handXSum count].
    simpl length in Hlen.
    destruct (Z.ltb_spec count 10).
    + specialize (IH r).
      destruct (frames r fs) as [r2 ss]. simpl in *.
      constructor; [reflexivity | apply IH; lia].
    + destruct (Z.ltb_spec 0 (gestureCooldownRef r)); [|lia].
      match goal with
      | |- context [frames ?r1 fs] => specialize (IH r1)
      end.
      destruct (frames _ fs) as [r2 ss]. simpl in *.
      constructor; [reflexivity | apply IH; lia].
Qed.

(** C9.  One frame of [detectSwipeGesture], where [handXSum] and [count] are
    what the pixel loop finds and [avgX] is their quotient: with fewer than 10
    bright pixels nothing is emitted and the refs stay; otherwise, with a
    cooldown active, nothing is emitted and the cooldown goes down by one;
    otherwise, when the centroid is more than 50 away from the stored one, a
    move to the right emits [next], a move to the left emits [prev], the
    cooldown is set to 20, and the following 20 frames emit nothing. *)
Theorem swipe_tracker_frame (r : Refs) (frame : ImageData) (handXSum count : Z) :
  brightPixels frame = (handXSum, count) ->
  let avgX := (inject_Z handXSum / inject_Z count)%Q in
  let swiped := {| lastXRef := Some avgX; gestureCooldownRef := 20 |} in
  (count < 10 -> detectSwipeGesture r frame = (r, none))
  /\ (10 <= count -> 0 < gestureCooldownRef r ->
      detectSwipeGesture r frame
      = ({| lastXRef := Some avgX; gestureCooldownRef := gestureCooldownRef r - 1 |},
         none))
  /\ (10 <= count -> gestureCooldownRef r <= 0 ->
      forall lastX : Q,
        lastXRef r = Some lastX ->
        (50 < Qabs (avgX - lastX))%Q ->
        ((0 < avgX - lastX)%Q -> detectSwipeGesture r frame = (swiped, next))
        /\ ((avgX - lastX < 0)%Q -> detectSwipeGesture r frame = (swiped, prev))
        /\ (forall fs : list ImageData,
              (length fs <= 20)%nat ->
              Forall (fun s => s = none)
                (snd (frames (fst (detectSwipeGesture r frame)) fs))))
  /\ (10 <= count -> lastXRef (fst (detectSwipeGesture r frame)) = Some avgX).
Proof.
  intros Hbp avgX swiped.
  unfold detectSwipeGesture. rewrite Hbp. fold avgX.
  split; [|split; [|split]].
  - intros Hc. destruct (Z.ltb_spec count 10); [reflexivity | lia].
  - intros Hc Hcool.
    destruct (Z.ltb_spec count 10); [lia|].
    destruct (Z.ltb_spec 0 (gestureCooldownRef r)); [reflexivity | lia].
  - intros Hc Hcool lastX HlastX Hfar.
    destruct (Z.ltb_spec count 10); [lia|].
    destruct (Z.ltb_spec 0 (gestureCooldownRef r)); [lia|].
    rewrite HlastX.
    unfold Qgtb. rewrite (proj2 (Qltb_lt 50 (Qabs (avgX - lastX))) Hfar).
    split; [|split].
    + intros Hpos. rewrite (proj2 (Qltb_lt 0 (avgX - lastX)) Hpos). reflexivity.
    + intros Hneg.
      assert (Qltb 0 (avgX - lastX) = false) as ->; [|reflexivity].
      apply Qltb_ge. apply Qlt_le_weak. exact Hneg.
    + intros fs Hlen. apply cooldown_is_silent. simpl. lia.
  - intros Hc.
    destruct (Z.ltb_spec count 10); [lia|].
    destruct (0 <? gestureCooldownRef r); [reflexivity|].
    destruct (lastXRef r) as [lastX|]; [|reflexivity].
    destruct (Qgtb (Qabs (avgX - lastX)) 50); reflexivity.
Qed.

Lemma swipe_tracker_frame_witness :
  brightPixels (testFrame 1600 1600) = (3240, 10)
  /\ detectSwipeGesture {| lastXRef := Some 180%Q; gestureCooldownRef := 3 |}
       (testFrame 1600 1600)
     = ({| lastXRef := Some (inject_Z 3240 / inject_Z 10)%Q; gestureCooldownRef := 3 - 1 |},
        none)
  /\ detectSwipeGesture {| lastXRef := Some 180%Q; gestureCooldownRef := 0 |}
       (testFrame 1600 1600)
     = ({| lastXRef := Some (inject_Z 3240 / inject_Z 10)%Q; gestureCooldownRef := 20 |},
        next).
Proof.
  assert (brightPixels (testFrame 1600 1600) = (3240, 10)) as Hbp
    by (vm_compute; reflexivity).
  split; [exact Hbp|]. split.
  - apply (swipe_tracker_frame {| lastXRef := Some 180%Q; gestureCooldownRef := 3 |}
             (testFrame 1600 1600) 3240 10 Hbp); simpl; lia.
  - apply (swipe_tracker_frame {| lastXRef := Some 180%Q; gestureCooldownRef := 0 |}
             (testFrame 1600 1600) 3240 10 Hbp) with (lastX := 180%Q).
    + lia.
    + simpl; lia.
    + reflexivity.
    + vm_compute; reflexivity.
    + vm_compute; reflexivity.
Defined.

End SwipeTrackerFacts.

(* ===================================================================== *)
(** * Properties of the keyboard path and of replaying a trace *)
(* ===================================================================== *)

Module GestureHookFacts.
Import Debouncer GestureHook DebouncerFacts.
Local Open Scope Z_scope.

(** Every emitted event is the event of one of the calls. *)
Lemma emitted_from_calls (o : GestureDetectionOptions) (cs : list Call) :
  forall r : Refs, Forall (fun e => In e (map eventOf cs)) (emitted o r cs).
Proof.
  induction cs as [|c cs IH]; intros r.
  - constructor.
  - rewrite emitted_cons.
    apply Forall_app. split.
    + destruct (processGesture_cases o r c)
        as [[_ E] | [(_ & _ & _ & E) | (_ & _ & e & Ht & Hn & Hq & E)]];
        rewrite E; simpl; constructor; [|constructor].
      left. destruct e; simpl in *; subst. reflexivity.
    + eapply List.Forall_impl; [|apply IH]. simpl. auto.
Qed.

Lemma keyCall_shape (e : KeyboardEvent) (c : Call) :
  keyCall e = Some c -> confidence c = 1%Q /\ is_Some (gesture c).
Proof.
  unfold keyCall. destruct (keyGesture (key e)) as [g|]; [|discriminate].
  intros [= <-]. simpl. split; [reflexivity | eexists; reflexivity].
Qed.

Lemma keyCalls_cons (e : KeyboardEvent) (es : list KeyboardEvent) :
  keyCalls (e :: es)
  = match keyCall e with
    | Some c => c :: keyCalls es
    | None => keyCalls es
    end.
Proof. reflexivity. Qed.

Lemma keyCalls_shape (es : list KeyboardEvent) :
  Forall (fun c => confidence c = 1%Q /\ is_Some (gesture c)) (keyCalls es).
Proof.
  induction es as [|e es IH]; [constructor|].
  rewrite keyCalls_cons.
  destruct (keyCall e) as [c|] eqn:E; [|exact IH].
  constructor; [exact (keyCall_shape e c E) | exact IH].
Qed.

Lemma keyboardRun_enabled (o : GestureDetectionOptions) (es : list KeyboardEvent) :
  forall r : Refs, keyboardRun true o r es = run o r (keyCalls es).
Proof.
  induction es as [|e es IH]; intros r; [reflexivity|].
  rewrite keyCalls_cons. cbn [keyboardRun onKeyDown]. unfold handleKeyDown.
  destruct (keyCall e) as [c|].
  - cbn [run]. destruct (processGesture o r c) as [r1 out]. rewrite IH.
    destruct (run o r1 (keyCalls es)). reflexivity.
  - rewrite IH. destruct (run o r (keyCalls es)). reflexivity.
Qed.

Lemma keyboardRun_disabled (o : GestureDetectionOptions) (es : list KeyboardEvent) :
  forall r : Refs, keyboardRun false o r es = (r, []).
Proof.
  induction es as [|e es IH]; intros r; simpl; [reflexivity|].
  rewrite IH. reflexivity.
Qed.

(** X1.  The keyboard path of the hook: with the listeners installed a
    sequence of key presses is a run of the debouncer on the candidates of the
    keys that name a gesture, so every event it emits has a gesture type
    (never [null]) and confidence 1.0; with detection disabled no key emits
    anything or touches the refs. *)
Theorem keyboard_path_submits_full_confidence
    (o : GestureDetectionOptions) (r : Refs) (es : list KeyboardEvent) :
  keyboardRun true o r es = run o r (keyCalls es)
  /\ Forall (fun e => ev_confidence e = 1%Q /\ is_Some (ev_type e))
       (snd (keyboardRun true o r es))
  /\ keyboardRun false o r es = (r, []).
Proof.
  split; [apply keyboardRun_enabled|]. split; [|apply keyboardRun_disabled].
  rewrite keyboardRun_enabled. fold (emitted o r (keyCalls es)).
  eapply List.Forall_impl; [|apply emitted_from_calls].
  intros e Hin. apply in_map_iff in Hin. destruct Hin as (c & <- & Hc).
  pose proof (keyCalls_shape es) as Hall.
  rewrite List.Forall_forall in Hall. exact (Hall c Hc).
Qed.

(** Lower-casing twice is lower-casing once. *)
Lemma lowerChar_idempotent (c : Ascii.ascii) : lowerChar (lowerChar c) = lowerChar c.
Proof.
  destruct c as [[] [] [] [] [] [] [] []]; reflexivity.
Qed.

Lemma toLowerCase_idempotent (s : string) : toLowerCase (toLowerCase s) = toLowerCase s.
Proof.
  induction s as [|c s IH]; simpl; [reflexivity|].
  rewrite lowerChar_idempotent, IH. reflexivity.
Qed.

(** X2.  The hook reads a key without regard to case, and it agrees with the
    viewer's own keyboard handler: [keyGesture] gives the same answer on a
    key and on its lower-case form, and every key the viewer maps to a
    gesture the hook maps to the same gesture. *)
Theorem keyboard_maps_agree (key : string) :
  keyGesture (toLowerCase key) = keyGesture key
  /\ (is_Some (Viewer.viewerKeyGesture key) ->
      keyGesture key = Viewer.viewerKeyGesture key).
Proof.
  split.
  - unfold keyGesture. rewrite toLowerCase_idempotent. reflexivity.
  - unfold Viewer.viewerKeyGesture.
    repeat match goal with
           | |- context [String.eqb key ?k] =>
               destruct (String.eqb_spec key k) as [->|]; simpl
           end;
      try reflexivity.
    intros [g Hg]. discriminate Hg.
Qed.

Lemma keyboard_maps_agree_witness :
  is_Some (Viewer.viewerKeyGesture "ArrowRight")
  /\ keyGesture "ArrowRight" = Some SWIPE_RIGHT
  /\ keyGesture "ARROWRIGHT" = keyGesture "arrowright".
Proof.
  split; [eexists; reflexivity|].
  split.
  - rewrite (proj2 (keyboard_maps_agree "ArrowRight")); [reflexivity|].
    eexists; reflexivity.
  - reflexivity.
Defined.

(** Resubmitting an accepted event to the refs it was accepted from accepts it
    again, as the same event. *)
Lemma replay_accepted (o : GestureDetectionOptions) (r : Refs) (e : GestureEvent) :
  debounceMs o <= ev_timestamp e - lastGestureTimeRef r ->
  (ev_type e = lastGestureTypeRef r ->
   3 * debounceMs o <= 2 * (ev_timestamp e - lastGestureTimeRef r)) ->
  processGesture o r (replayCall e) = (refsAfter e, Accepted e true).
Proof.
  intros Hge Hsame.
  destruct (processGesture_cases o r (replayCall e))
    as [[Hlt _] | [(_ & Heq & Hlt & _) | (_ & _ & e' & Ht & Hn & Hq & E)]];
    simpl in *.
  - lia.
  - specialize (Hsame Heq). lia.
  - rewrite E. destruct e, e'; simpl in *; subst. reflexivity.
Qed.

(** X3.  Suppressed calls leave no trace: resubmitting only the events a run
    emitted, each at its own time, emits exactly the same events. *)
Theorem replaying_the_trace_reproduces_it (o : GestureDetectionOptions) (cs : list Call) :
  forall r : Refs,
    emitted o r (map replayCall (emitted o r cs)) = emitted o r cs.
Proof.
  induction cs as [|c cs IH]; intros r.
  - reflexivity.
  - destruct (emitted_step o r c cs) as [E | (e & E & Hge & Hsame)]; rewrite E.
    + apply IH.
    + simpl map. rewrite emitted_cons.
      rewrite (replay_accepted o r e Hge Hsame). simpl.
      rewrite IH. reflexivity.
Qed.

End GestureHookFacts.

(* ===================================================================== *)
(** * Properties of the FPS counter *)
(* ===================================================================== *)

Module FpsFacts.
Import GestureHook.
Local Open Scope Z_scope.

Lemma updateFPS_times (t : Q) (s : FpsState) :
  frameTimesRef (updateFPS t s)
  = skipn (length (frameTimesRef s ++ [t]) - 60) (frameTimesRef s ++ [t])
  \/ (61 < length (frameTimesRef s ++ [t]))%nat.
Proof.
  unfold updateFPS.
  set (l := frameTimesRef s ++ [t]).
  destruct (Nat.ltb_spec 60 (length l)) as [Hlong|Hshort].
  - destruct (Nat.le_gt_cases (length l) 61) as [Hle|Hgt]; [left | right; exact Hgt].
    replace (length l - 60)%nat with 1%nat by lia.
    destruct (1 <? length (tail l))%nat; reflexivity.
  - left. replace (length l - 60)%nat with 0%nat by lia.
    destruct (1 <? length l)%nat; reflexivity.
Qed.

(** The buffer after a tick, when it held at most 60 times before. *)
Lemma updateFPS_buffer (t : Q) (s : FpsState) :
  (length (frameTimesRef s) <= 60)%nat ->
  frameTimesRef (updateFPS t s)
  = skipn (length (frameTimesRef s ++ [t]) - 60) (frameTimesRef s ++ [t]).
Proof.
  intros Hlen. destruct (updateFPS_times t s) as [E|Hgt]; [exact E|].
  rewrite length_app in Hgt. simpl in Hgt. lia.
Qed.

Lemma fpsTicks_buffer (ticks : list Q) :
  forall s : FpsState,
    (length (frameTimesRef s) <= 60)%nat ->
    frameTimesRef (fpsTicks ticks s)
    = skipn (length (frameTimesRef s ++ ticks) - 60) (frameTimesRef s ++ ticks).
Proof.
  induction ticks as [|t ticks IH]; intros s Hlen.
  - simpl. rewrite app_nil_r.
    replace (length (frameTimesRef s) - 60)%nat with 0%nat by lia. reflexivity.
  - change (fpsTicks (t :: ticks) s) with (fpsTicks ticks (updateFPS t s)).
    pose proof (updateFPS_buffer t s Hlen) as Hbuf.
    rewrite IH.
    + rewrite Hbuf.
      set (A := frameTimesRef s ++ [t]).
      set (k := (length A - 60)%nat).
      assert (skipn k A ++ ticks = skipn k (A ++ ticks)) as ->.
      { rewrite skipn_app. replace (k - length A)%nat with 0%nat by lia.
        reflexivity. }
      rewrite skipn_skipn, length_skipn.
      replace (frameTimesRef s ++ t :: ticks) with (A ++ ticks)
        by (unfold A; rewrite <- app_assoc; reflexivity).
      f_equal. rewrite length_app. subst k. lia.
    + rewrite Hbuf, length_skipn. lia.
Qed.

Lemma updateFPS_cap (t : Q) (s : FpsState) : fps s <= 30 -> fps (updateFPS t s) <= 30.
Proof.
  intros Hcap. unfold updateFPS.
  repeat match goal with
         | |- context [if ?b then _ else _] => destruct b
         end; simpl; lia.
Qed.

Lemma fpsTicks_cap (ticks : list Q) :
  forall s : FpsState, fps s <= 30 -> fps (fpsTicks ticks s) <= 30.
Proof.
  induction ticks as [|t ticks IH]; intros s Hcap; [exact Hcap|].
  apply (IH (updateFPS t s)). apply updateFPS_cap. exact Hcap.
Qed.

(** ** A clock that does not run backwards *)

Lemma nondecreasing_app (l1 l2 : list Q) :
  nondecreasing (l1 ++ l2) -> nondecreasing l1 /\ nondecreasing l2.
Proof.
  induction l1 as [|a l1 IH]; simpl; [tauto|].
  intros [Hall Hrest]. apply Forall_app in Hall.
  destruct (IH Hrest). tauto.
Qed.

Lemma nondecreasing_skipn (k : nat) (l : list Q) :
  nondecreasing l -> nondecreasing (skipn k l).
Proof.
  intros H. rewrite <- (firstn_skipn k l) in H.
  apply nondecreasing_app in H. tauto.
Qed.

Lemma nondecreasing_hd_last (l : list Q) :
  nondecreasing l -> (hd 0 l <= List.last l 0)%Q.
Proof.
  destruct l as [|a l]; [intros _; apply Qle_refl|].
  simpl hd. intros [Hall _].
  destruct l as [|b l]; [apply Qle_refl|].
  rewrite List.Forall_forall in Hall. apply Hall.
  clear. revert b. induction l as [|c l IH]; intros b; [left; reflexivity|].
  right. apply IH.
Qed.

Lemma round_nonneg (q : Q) : (0 <= q)%Q -> 0 <= round q.
Proof.
  intros Hq. unfold round.
  change 0 with (Qfloor 0). apply Qfloor_resp_le. lra.
Qed.

Lemma updateFPS_nonneg (t : Q) (s : FpsState) :
  (length (frameTimesRef s) <= 60)%nat ->
  nondecreasing (frameTimesRef s ++ [t]) ->
  0 <= fps s -> 0 <= fps (updateFPS t s).
Proof.
  intros Hlen Hmono Hfps.
  pose proof (updateFPS_buffer t s Hlen) as Hbuf.
  assert (nondecreasing (frameTimesRef (updateFPS t s))) as Hsorted.
  { rewrite Hbuf. apply nondecreasing_skipn. exact Hmono. }
  apply nondecreasing_hd_last in Hsorted.
  revert Hsorted. unfold updateFPS.
  set (times := if (60 <? length (frameTimesRef s ++ [t]))%nat
                then tail (frameTimesRef s ++ [t]) else frameTimesRef s ++ [t]).
  destruct (Nat.ltb_spec 1 (length times)) as [Hmany|Hfew]; simpl; [|auto].
  intros Hspan.
  destruct (Qeq_bool (List.last times 0 - hd 0 times)%Q 0%Q) eqn:Hzero; [lia|].
  apply Z.min_glb; [|lia].
  apply round_nonneg.
  apply Qeq_bool_neq in Hzero.
  assert (0 < List.last times 0 - hd 0 times)%Q as Hpos by lra.
  assert (0 <= inject_Z (Z.of_nat (length times) - 1))%Q as Hn.
  { change 0%Q with (inject_Z 0). rewrite <- Zle_Qle. lia. }
  apply Qle_shift_div_l; [exact Hpos|].
  assert (0 <= inject_Z (Z.of_nat (length times) - 1) * 1000)%Q
    by (apply Qmult_le_0_compat; [exact Hn | discriminate]).
  lra.
Qed.

Lemma fpsTicks_nonneg (ticks : list Q) :
  forall s : FpsState,
    (length (frameTimesRef s) <= 60)%nat ->
    nondecreasing (frameTimesRef s ++ ticks) ->
    0 <= fps s -> 0 <= fps (fpsTicks ticks s).
Proof.
  induction ticks as [|t ticks IH]; intros s Hlen Hmono Hfps; [exact Hfps|].
  change (fpsTicks (t :: ticks) s) with (fpsTicks ticks (updateFPS t s)).
  pose proof (updateFPS_buffer t s Hlen) as Hbuf.
  replace (frameTimesRef s ++ t :: ticks) with ((frameTimesRef s ++ [t]) ++ ticks)
    in Hmono by (rewrite <- app_assoc; reflexivity).
  apply IH.
  - rewrite Hbuf, length_skipn. lia.
  - rewrite Hbuf.
    set (A := frameTimesRef s ++ [t]) in *.
    assert (skipn (length A - 60) A ++ ticks = skipn (length A - 60) (A ++ ticks)) as ->.
    { rewrite skipn_app. replace (length A - 60 - length A)%nat with 0%nat by lia.
      reflexivity. }
    apply nondecreasing_skipn. exact Hmono.
  - apply updateFPS_nonneg; [exact Hlen | | exact Hfps].
    apply nondecreasing_app in Hmono. tauto.
Qed.

(** X4.  The FPS counter, started from the disabled state and ticked at the
    given times: its buffer is the last 60 tick times (all of them when there
    are fewer), and the rate it shows never exceeds 30. *)
Theorem fps_counter_keeps_last_sixty_and_caps (ticks : list Q) :
  frameTimesRef (fpsTicks ticks fpsDisabled) = skipn (length ticks - 60) ticks
  /\ (length (frameTimesRef (fpsTicks ticks fpsDisabled)) <= 60)%nat
  /\ fps (fpsTicks ticks fpsDisabled) <= 30.
Proof.
  assert (frameTimesRef (fpsTicks ticks fpsDisabled) = skipn (length ticks - 60) ticks)
    as Hbuf.
  { rewrite fpsTicks_buffer; simpl; [reflexivity | lia]. }
  split; [exact Hbuf|]. split.
  - rewrite Hbuf, length_skipn. lia.
  - apply fpsTicks_cap. simpl. lia.
Qed.

(** X5.  With a clock that does not run backwards, the rate the FPS counter
    shows is never negative. *)
Theorem fps_counter_is_nonnegative (ticks : list Q) :
  nondecreasing ticks -> 0 <= fps (fpsTicks ticks fpsDisabled).
Proof.
  intros Hmono. apply fpsTicks_nonneg; simpl; [lia | exact Hmono | lia].
Qed.

Lemma fps_counter_is_nonnegative_witness :
  nondecreasing [0; 100; 200; 300]%Q
  /\ 0 <= fps (fpsTicks [0; 100; 200; 300]%Q fpsDisabled).
Proof.
  assert (nondecreasing [0; 100; 200; 300]%Q) as Hmono.
  { simpl. repeat split; repeat constructor; discriminate. }
  split; [exact Hmono|].
  apply (fps_counter_is_nonnegative [0; 100; 200; 300]%Q Hmono).
Defined.

End FpsFacts.

(* ===================================================================== *)
(** * Properties of the presentation viewer *)
(* ===================================================================== *)

Module ViewerFacts.
Import Debouncer Viewer.
Local Open Scope Z_scope.





(** X7.  A swipe right followed by a swipe left returns to the slide it
    started from unless that was the last slide, and a swipe left followed by
    a swipe right returns to it unless that was the first. *)
Theorem swipes_undo_each_other (slides : Z) (t1 t2 : Z) (v : ViewerState) :
  0 <= currentSlideIndex v <= slides - 1 ->
  let swipe g t w := fst (handleGestureDetected (Some slides) (Some g) t w) in
  (currentSlideIndex v < slides - 1 ->
   currentSlideIndex (swipe SWIPE_LEFT t2 (swipe SWIPE_RIGHT t1 v)) = currentSlideIndex v)
  /\ (0 < currentSlideIndex v ->
      currentSlideIndex (swipe SWIPE_RIGHT t2 (swipe SWIPE_LEFT t1 v)) = currentSlideIndex v)
  /\ (currentSlideIndex v = slides - 1 ->
      currentSlideIndex (swipe SWIPE_RIGHT t1 v) = currentSlideIndex v)
  /\ (currentSlideIndex v = 0 ->
      currentSlideIndex (swipe SWIPE_LEFT t1 v) = currentSlideIndex v).
Proof.
  intros Hv swipe. unfold swipe, handleGestureDetected.
  repeat split; intros H; simpl.
  - destruct (Z.ltb_spec (currentSlideIndex v) (slides - 1)); [|lia]. simpl.
    destruct (Z.ltb_spec 0 (currentSlideIndex v + 1)); simpl; lia.
  - destruct (Z.ltb_spec 0 (currentSlideIndex v)); [|lia]. simpl.
    destruct (Z.ltb_spec (currentSlideIndex v - 1) (slides - 1)); simpl; lia.
  - destruct (Z.ltb_spec (currentSlideIndex v) (slides - 1)); [lia|]. reflexivity.
  - destruct (Z.ltb_spec 0 (currentSlideIndex v)); [lia|]. reflexivity.
Qed.

Lemma swipes_undo_each_other_witness :
  let v := {| currentSlideIndex := 2; isPlaying := false; gestureLog := [] |} in
  0 <= currentSlideIndex v <= 5 - 1
  /\ currentSlideIndex
       (fst (handleGestureDetected (Some 5) (Some SWIPE_LEFT) 2000
               (fst (handleGestureDetected (Some 5) (Some SWIPE_RIGHT) 1000 v))))
     = 2.
Proof.
  split; [simpl; lia|].
  apply (swipes_undo_each_other 5 1000 2000
           {| currentSlideIndex := 2; isPlaying := false; gestureLog := [] |});
    simpl; lia.
Defined.

Lemma sliceLast_length {A : Type} (n : nat) (l : list A) :
  (length (sliceLast n l) <= n)%nat.
Proof. unfold sliceLast. rewrite length_skipn. lia. Qed.

Lemma handleGestureDetected_log (p : option Z) (g : GestureType) (now : Z) (v : ViewerState) :
  let v' := fst (handleGestureDetected p g now v) in
  gestureLog v' = gestureLog v
  \/ exists g0, g = Some g0
       /\ gestureLog v'
          = sliceLast 9 (gestureLog v)
            ++ [{| log_gesture := g0; log_timestamp := now;
                   log_slideIndex := currentSlideIndex v |}].
Proof.
  unfold handleGestureDetected.
  destruct p as [slides|]; [|left; reflexivity].
  destruct g as [g0|]; [|left; reflexivity].
  right. exists g0. split; [reflexivity|].
  destruct g0; simpl; try reflexivity.
  - destruct (0 <? currentSlideIndex v); reflexivity.
  - destruct (currentSlideIndex v <? slides - 1); reflexivity.
Qed.

Lemma viewerStep_log (p : option Z) (v : ViewerState) (i : Input) :
  (length (gestureLog v) <= 10)%nat ->
  (length (gestureLog (viewerStep p v i)) <= 10)%nat.
Proof.
  intros Hlen.
  assert (forall g now,
            (length (gestureLog (fst (handleGestureDetected p g now v))) <= 10)%nat)
    as Hg.
  { intros g now.
    destruct (handleGestureDetected_log p g now v) as [E | (g0 & _ & E)]; rewrite E.
    - exact Hlen.
    - rewrite length_app. pose proof (sliceLast_length 9 (gestureLog v)). simpl. lia. }
  destruct i as [g now|key now| | | |]; simpl; auto.
  - unfold handleKeyDown. destruct p; [|exact Hlen].
    destruct (viewerKeyGesture key); [apply Hg | exact Hlen].
  - unfold goToPreviousSlide. destruct p; [|exact Hlen].
    destruct (0 <? currentSlideIndex v); exact Hlen.
  - unfold goToNextSlide. destruct p as [slides|]; [|exact Hlen].
    destruct (currentSlideIndex v <? slides - 1); exact Hlen.
  - lia.
Qed.

(** X8.  The gesture log never holds more than ten entries: each accepted
    gesture is appended after the nine most recent ones, with the time and the
    slide it arrived on, and nothing else adds to the log. *)
Theorem gesture_log_keeps_ten (p : option Z) (ins : list Input) (g : Gesture) (now : Z) :
  let v := viewerRun p initialViewer ins in
  (length (gestureLog v) <= 10)%nat
  /\ (forall slides,
        gestureLog (fst (handleGestureDetected (Some slides) (Some g) now v))
        = sliceLast 9 (gestureLog v)
          ++ [{| log_gesture := g; log_timestamp := now;
                 log_slideIndex := currentSlideIndex v |}]).
Proof.
  split.
  - unfold viewerRun.
    assert (forall w, (length (gestureLog w) <= 10)%nat ->
                      (length (gestureLog (fold_left (viewerStep p) ins w)) <= 10)%nat)
      as Hrun.
    { induction ins as [|i ins IH]; intros w Hw; [exact Hw|].
      simpl. apply IH. apply viewerStep_log. exact Hw. }
    apply Hrun. simpl. lia.
  - intros slides. unfold handleGestureDetected.
    destruct g; simpl; try reflexivity.
    + destruct (0 <? currentSlideIndex (viewerRun p initialViewer ins)); reflexivity.
    + destruct (currentSlideIndex (viewerRun p initialViewer ins) <? slides - 1);
        reflexivity.
Qed.

(** X9.  Over a sequence of gestures on a loaded presentation, playback is
    what the last OPEN_PALM or CLOSED_FIST asked for (playing after the one,
    paused after the other) and is untouched when there was neither: swipes,
    pointing, thumbs-up and [null] never change it. *)
Theorem playback_follows_last_media_gesture
    (slides : Z) (gts : list (GestureType * Z)) :
  forall v : ViewerState,
    isPlaying (viewerRun (Some slides) v (map (fun gt => GestureIn (fst gt) (snd gt)) gts))
    = default (isPlaying v) (lastMediaGesture (map fst gts)).
Proof.
  unfold viewerRun.
  induction gts as [|[g t] gts IH]; intros v; [reflexivity|].
  simpl. rewrite IH.
  destruct (lastMediaGesture (map fst gts)) as [b|]; [reflexivity|].
  simpl. unfold handleGestureDetected.
  destruct g as [[]|]; simpl; try reflexivity.
  - destruct (0 <? currentSlideIndex v); reflexivity.
  - destruct (currentSlideIndex v <? slides - 1); reflexivity.
Qed.

(** X10.  The viewer ignores what it cannot act on: a [null] gesture changes
    nothing and shows no toast, and while no presentation is loaded no
    gesture, key or navigation button moves the slide or adds to the log. *)
Theorem viewer_ignores_null_and_missing_presentation
    (p : option Z) (now : Z) (v : ViewerState) (ins : list Input) :
  handleGestureDetected p None now v = (v, None)
  /\ currentSlideIndex (viewerRun None v ins) = currentSlideIndex v
  /\ (length (gestureLog (viewerRun None v ins)) <= length (gestureLog v))%nat.
Proof.
  split; [destruct p; reflexivity|].
  unfold viewerRun. revert v.
  induction ins as [|i ins IH]; intros v; [simpl; split; [reflexivity | lia]|].
  simpl. destruct (IH (viewerStep None v i)) as [Hidx Hlog].
  rewrite Hidx.
  assert (currentSlideIndex (viewerStep None v i) = currentSlideIndex v
          /\ (length (gestureLog (viewerStep None v i)) <= length (gestureLog v))%nat)
    as [Hi Hl].
  { destruct i as [g t|key t| | | |]; simpl; split; try reflexivity; lia. }
  split; [exact Hi | lia].
Qed.

End ViewerFacts.

(* ===================================================================== *)
(** * More on the classifier *)
(* ===================================================================== *)

Module ClassifierMore.
Import Landmarks Classifier ComparisonFacts ClassifierFacts.
Local Open Scope Q_scope.

Ltac unfold_rules :=
  unfold thumbsUpRule, pointingRule, openPalmRule, thumbExtension, indexExtension,
    middleExtension, ringExtension, pinkyExtension, extension in *.

(** No hand satisfies two of the three rules. *)
Lemma rules_exclude_each_other (lm : Hand) :
  ~ (thumbsUpRule lm /\ pointingRule lm)
  /\ ~ (thumbsUpRule lm /\ openPalmRule lm)
  /\ ~ (pointingRule lm /\ openPalmRule lm).
Proof.
  unfold_rules. repeat split; intros H; decompose [and] H; lra.
Qed.

(** X11.  The three rules of [detectGesture] are pairwise exclusive, so on a
    full hand each label is returned exactly when its own rule holds, whatever
    the order the rules are tried in, and [null] exactly when none holds. *)
Theorem each_label_has_its_own_rule (lm : Hand) :
  (21 <= length lm)%nat ->
  (~ (thumbsUpRule lm /\ pointingRule lm)
   /\ ~ (thumbsUpRule lm /\ openPalmRule lm)
   /\ ~ (pointingRule lm /\ openPalmRule lm))
  /\ (detectGesture (Some lm) = Some "thumbs_up"%string <-> thumbsUpRule lm)
  /\ (detectGesture (Some lm) = Some "pointing"%string <-> pointingRule lm)
  /\ (detectGesture (Some lm) = Some "open_palm"%string <-> openPalmRule lm)
  /\ (detectGesture (Some lm) = None
      <-> ~ thumbsUpRule lm /\ ~ pointingRule lm /\ ~ openPalmRule lm).
Proof.
  intros Hlen.
  pose proof (rules_exclude_each_other lm) as (X1 & X2 & X3).
  split; [auto|].
  destruct (detectGesture_rules lm Hlen)
    as [(HT & E) | [(HT & HP & E) | [(HT & HP & HO & E) | (HT & HP & HO & E)]]];
    rewrite E;
    repeat match goal with
           | |- _ /\ _ => split
           | |- _ <-> _ => split
           end;
    intros; try discriminate; try reflexivity; tauto.
Qed.

Lemma each_label_has_its_own_rule_witness :
  (21 <= length (thumbRaisedBy (1 # 5)))%nat
  /\ (detectGesture (Some (thumbRaisedBy (1 # 5))) = Some "pointing"%string
      <-> pointingRule (thumbRaisedBy (1 # 5))).
Proof.
  assert (21 <= length (thumbRaisedBy (1 # 5)))%nat as Hlen by (simpl; lia).
  split; [exact Hlen|].
  apply (each_label_has_its_own_rule (thumbRaisedBy (1 # 5)) Hlen).
Defined.

(** The rules read the hand through [yAt] at the six key landmarks only. *)
Lemma rules_of_equal_heights (lm lm' : Hand) :
  (forall i : nat, In i keyLandmarks -> yAt lm i == yAt lm' i) ->
  (thumbsUpRule lm <-> thumbsUpRule lm')
  /\ (pointingRule lm <-> pointingRule lm')
  /\ (openPalmRule lm <-> openPalmRule lm').
Proof.
  intros H.
  assert (yAt lm 0 == yAt lm' 0) as E0 by (apply H; simpl; auto 10).
  assert (yAt lm 4 == yAt lm' 4) as E4 by (apply H; simpl; auto 10).
  assert (yAt lm 8 == yAt lm' 8) as E8 by (apply H; simpl; auto 10).
  assert (yAt lm 12 == yAt lm' 12) as E12 by (apply H; simpl; auto 10).
  assert (yAt lm 16 == yAt lm' 16) as E16 by (apply H; simpl; auto 10).
  assert (yAt lm 20 == yAt lm' 20) as E20 by (apply H; simpl; auto 10).
  clear H.
  unfold_rules.
  split; [|split]; split; intros Hr; decompose [and] Hr; repeat split; lra.
Qed.

Lemma detectGesture_of_equivalent_rules (lm lm' : Hand) :
  (21 <= length lm)%nat -> (21 <= length lm')%nat ->
  (thumbsUpRule lm <-> thumbsUpRule lm') ->
  (pointingRule lm <-> pointingRule lm') ->
  (openPalmRule lm <-> openPalmRule lm') ->
  detectGesture (Some lm) = detectGesture (Some lm').
Proof.
  intros Hlen Hlen' HT HP HO.
  destruct (detectGesture_rules lm Hlen)
    as [(? & E) | [(? & ? & E) | [(? & ? & ? & E) | (? & ? & ? & E)]]];
    destruct (detectGesture_rules lm' Hlen')
      as [(? & E') | [(? & ? & E') | [(? & ? & ? & E') | (? & ? & ? & E')]]];
    rewrite E, E'; first [reflexivity | exfalso; tauto].
Qed.

Lemma detectGesture_short (lm : Hand) :
  (length lm < 21)%nat -> detectGesture (Some lm) = None.
Proof.
  intros Hlen. unfold detectGesture.
  destruct (Nat.ltb_spec (length lm) 21); [reflexivity | lia].
Qed.

(** X12.  [detectGesture] answers [null] for no array and for an array of
    fewer than 21 landmarks, and on full hands it reads nothing but the
    heights of the wrist and the five fingertips: two full hands that agree on
    the [y] of landmarks 0, 4, 8, 12, 16 and 20 get the same answer, whatever
    their other landmarks and their [x] and [z] are. *)
Theorem only_six_heights_matter (lm lm' : Hand) :
  (21 <= length lm)%nat -> (21 <= length lm')%nat ->
  (forall i : nat, In i keyLandmarks -> yAt lm i == yAt lm' i) ->
  detectGesture (Some lm) = detectGesture (Some lm')
  /\ detectGesture None = None
  /\ (forall short : Hand, (length short < 21)%nat -> detectGesture (Some short) = None).
Proof.
  intros Hlen Hlen' Hy.
  destruct (rules_of_equal_heights lm lm' Hy) as (HT & HP & HO).
  split; [|split; [reflexivity | exact detectGesture_short]].
  apply detectGesture_of_equivalent_rules; assumption.
Qed.

Lemma only_six_heights_matter_witness :
  detectGesture (Some (thumbRaisedBy (1 # 5) ++ [atY 0; atY 1]))
  = detectGesture (Some (thumbRaisedBy (1 # 5))).
Proof.
  apply (only_six_heights_matter (thumbRaisedBy (1 # 5) ++ [atY 0; atY 1])
           (thumbRaisedBy (1 # 5))).
  - simpl. lia.
  - simpl. lia.
  - intros i Hi. unfold keyLandmarks in Hi. simpl in Hi.
    decompose [or] Hi; subst; try reflexivity. contradiction.
Defined.





End ClassifierMore.

(* ===================================================================== *)
(** * More on the swipe tracker *)
(* ===================================================================== *)

Module SwipeTrackerMore.
Import Landmarks SwipeTracker ComparisonFacts SwipeTrackerFacts.
Local Open Scope Z_scope.

(** ** The pixel loop *)

Lemma scanPixel_bounds (frame : ImageData) (acc : Z * Z) (i : nat) :
  1 <= width frame ->
  0 <= snd acc /\ 0 <= fst acc <= snd acc * (width frame - 1) ->
  (snd acc <= snd (scanPixel frame acc i) <= snd acc + 1)
  /\ 0 <= fst (scanPixel frame acc i) <= snd (scanPixel frame acc i) * (width frame - 1).
Proof.
  intros Hw [Hc Hs]. unfold scanPixel.
  destruct (data frame !! i); [|lia].
  destruct (data frame !! (i + 1)%nat); [|lia].
  destruct (data frame !! (i + 2)%nat); [|lia].
  destruct (Qgtb _ 100); [|lia].
  simpl.
  assert (0 <= Z.rem (Z.of_nat i / 4) (width frame) < width frame) as Hx.
  { apply Z.rem_bound_pos; [|lia]. apply Z.div_pos; lia. }
  nia.
Qed.

Lemma scan_bounds (frame : ImageData) (offsets : list nat) :
  1 <= width frame ->
  forall acc : Z * Z,
    0 <= snd acc /\ 0 <= fst acc <= snd acc * (width frame - 1) ->
    let res := fold_left (scanPixel frame) offsets acc in
    (snd acc <= snd res <= snd acc + Z.of_nat (length offsets))
    /\ 0 <= fst res <= snd res * (width frame - 1).
Proof.
  intros Hw. induction offsets as [|i offsets IH]; intros acc Hacc; simpl.
  - lia.
  - destruct (scanPixel_bounds frame acc i Hw Hacc) as [Hc Hs].
    destruct (IH (scanPixel frame acc i)) as [Hc' Hs']; [lia|].
    simpl in Hc', Hs'. split; [lia | exact Hs'].
Qed.

Lemma brightPixels_bounds (frame : ImageData) :
  1 <= width frame ->
  (0 <= snd (brightPixels frame) <= Z.of_nat ((length (data frame) + 159) / 160))
  /\ 0 <= fst (brightPixels frame) <= snd (brightPixels frame) * (width frame - 1).
Proof.
  intros Hw. unfold brightPixels.
  assert (length (sampleOffsets (length (data frame)))
          = ((length (data frame) + 159) / 160)%nat) as Hlen
    by (unfold sampleOffsets; rewrite List.length_map, List.length_seq; reflexivity).
  destruct (scan_bounds frame (sampleOffsets (length (data frame))) Hw (0, 0))
    as [Hc Hs]; [simpl; lia|].
  cbn [fst snd] in Hc, Hs. rewrite Hlen in Hc. split; [lia | exact Hs].
Qed.

Lemma quotient_bounds (s c w : Z) :
  0 < c -> 0 <= s <= c * w ->
  (0 <= inject_Z s / inject_Z c <= inject_Z w)%Q.
Proof.
  intros Hc [Hs0 Hs].
  assert (0 < inject_Z c)%Q as Hcq
    by (change 0%Q with (inject_Z 0); rewrite <- Zlt_Qlt; exact Hc).
  split.
  - apply Qle_shift_div_l; [exact Hcq|].
    rewrite Qmult_0_l. change 0%Q with (inject_Z 0). rewrite <- Zle_Qle. exact Hs0.
  - apply Qle_shift_div_r; [exact Hcq|].
    rewrite <- inject_Z_mult, <- Zle_Qle. lia.
Qed.

(** X15.  The pixel loop on a frame at least one pixel wide: it counts at most
    one bright pixel per sampled offset, of which there are the length of the
    data over 160, rounded up; the sum of the columns is at most
    [count * (width - 1)]; so a centroid, when the frame yields one, is a
    column of the frame. *)
Theorem centroid_is_inside_the_frame (frame : ImageData) :
  1 <= width frame ->
  (0 <= snd (brightPixels frame) <= Z.of_nat ((length (data frame) + 159) / 160))
  /\ 0 <= fst (brightPixels frame) <= snd (brightPixels frame) * (width frame - 1)
  /\ (forall q : Q, centroid frame = Some q ->
                    (0 <= q <= inject_Z (width frame - 1))%Q).
Proof.
  intros Hw. destruct (brightPixels_bounds frame Hw) as [Hc Hs].
  split; [exact Hc|]. split; [exact Hs|].
  intros q. unfold centroid.
  destruct (brightPixels frame) as [handXSum count]. simpl in *.
  destruct (Z.ltb_spec count 10); [discriminate|].
  intros [= <-]. apply quotient_bounds; lia.
Qed.

Lemma centroid_is_inside_the_frame_witness :
  1 <= width (testFrame 1600 1600)
  /\ centroid (testFrame 1600 1600) = Some (inject_Z 3240 / inject_Z 10)%Q
  /\ (0 <= inject_Z 3240 / inject_Z 10 <= inject_Z (640 - 1))%Q.
Proof.
  assert (centroid (testFrame 1600 1600) = Some (inject_Z 3240 / inject_Z 10)%Q) as E
    by (vm_compute; reflexivity).
  split; [simpl; lia|]. split; [exact E|].
  apply (centroid_is_inside_the_frame (testFrame 1600 1600)); [simpl; lia | exact E].
Defined.

(** ** Frames too narrow for a swipe *)

Lemma narrow_frame_is_silent (r : Refs) (frame : ImageData) :
  1 <= width frame <= 51 ->
  storedBelow 50 r ->
  snd (detectSwipeGesture r frame) = none
  /\ storedBelow 50 (fst (detectSwipeGesture r frame)).
Proof.
  intros Hw Hr.
  destruct (brightPixels_bounds frame) as [Hc Hs]; [lia|].
  unfold detectSwipeGesture.
  destruct (brightPixels frame) as [handXSum count]. simpl in Hc, Hs.
  destruct (Z.ltb_spec count 10); [split; [reflexivity | exact Hr]|].
  assert (0 <= inject_Z handXSum / inject_Z count <= inject_Z 50)%Q as Havg.
  { destruct (quotient_bounds handXSum count (width frame - 1)) as [H0 H1]; [lia | lia |].
    split; [exact H0|].
    eapply Qle_trans; [exact H1|]. rewrite <- Zle_Qle. lia. }
  destruct (0 <? gestureCooldownRef r); [split; [reflexivity | exact Havg]|].
  unfold storedBelow in Hr.
  destruct (lastXRef r) as [lastX|]; [|split; [reflexivity | exact Havg]].
  assert (Qgtb (Qabs (inject_Z handXSum / inject_Z count - lastX)) 50 = false) as ->.
  { unfold Qgtb. apply Qltb_ge. apply Qabs_Qle_condition.
    change (inject_Z 50) with 50%Q in *. split; lra. }
  split; [reflexivity | exact Havg].
Qed.

(** X16.  Frames of at most 51 pixels in width never yield a swipe: two
    centroids inside such a frame are at most 50 apart, which the test
    [> 50] rejects. *)
Theorem narrow_frames_never_swipe (fs : list ImageData) :
  Forall (fun f => 1 <= width f <= 51) fs ->
  Forall (fun s => s = none) (snd (frames initialRefs fs)).
Proof.
  intros Hfs.
  assert (forall r, storedBelow 50 r ->
                    Forall (fun s => s = none) (snd (frames r fs))) as Hall.
  { induction Hfs as [|f fs Hf _ IH]; intros r Hr; simpl; [constructor|].
    destruct (narrow_frame_is_silent r f Hf Hr) as [Hnone Hnext].
    destruct (detectSwipeGesture r f) as [r1 s]. simpl in *.
    specialize (IH r1 Hnext).
    destruct (frames r1 fs) as [r2 ss]. simpl in *.
    constructor; assumption. }
  apply Hall. exact I.
Qed.

Lemma narrow_frames_never_swipe_witness :
  Forall (fun f => 1 <= width f <= 51) [frameOfWidth 51 0 1600; frameOfWidth 51 1600 1600]
  /\ centroid (frameOfWidth 51 0 1600) = Some (inject_Z 219 / inject_Z 10)%Q
  /\ snd (frames initialRefs [frameOfWidth 51 0 1600; frameOfWidth 51 1600 1600])
     = [none; none].
Proof.
  assert (Forall (fun f => 1 <= width f <= 51)
            [frameOfWidth 51 0 1600; frameOfWidth 51 1600 1600]) as Hfs
    by (repeat constructor; simpl; lia).
  split; [exact Hfs|]. split; [vm_compute; reflexivity|].
  pose proof (narrow_frames_never_swipe _ Hfs) as Hnone.
  destruct (snd (frames initialRefs [frameOfWidth 51 0 1600; frameOfWidth 51 1600 1600]))
    as [|s1 [|s2 [|s3 ss]]] eqn:E;
    try (vm_compute in E; discriminate E).
  inversion Hnone as [|? ? H1 Hrest]; subst.
  inversion Hrest as [|? ? H2 _]; subst. reflexivity.
Defined.

End SwipeTrackerMore.

(* ===================================================================== *)
(** * Dark frames, the first frame and the cadence of swipes *)
(* ===================================================================== *)

Module SwipeTrackerCadence.
Import Landmarks SwipeTracker ComparisonFacts SwipeTrackerFacts.
Local Open Scope Z_scope.





(** ** At most one swipe in 21 frames *)

Lemma frames_cons (r : Refs) (f : ImageData) (fs : list ImageData) :
  snd (frames r (f :: fs))
  = snd (detectSwipeGesture r f) :: snd (frames (fst (detectSwipeGesture r f)) fs).
Proof.
  cbn [frames]. destruct (detectSwipeGesture r f) as [r1 s]. cbn [fst snd].
  destruct (frames r1 fs). reflexivity.
Qed.

Lemma frames_firstn (k : nat) :
  forall (fs : list ImageData) (r : Refs),
    snd (frames r (firstn k fs)) = firstn k (snd (frames r fs)).
Proof.
  induction k as [|k IH]; intros fs r; [reflexivity|].
  destruct fs as [|f fs]; [reflexivity|].
  change (firstn (S k) (f :: fs)) with (f :: firstn k fs).
  rewrite !frames_cons. cbn [firstn]. rewrite IH. reflexivity.
Qed.

Lemma swipe_arms_cooldown (r : Refs) (f : ImageData) :
  snd (detectSwipeGesture r f) <> none ->
  gestureCooldownRef (fst (detectSwipeGesture r f)) = 20.
Proof.
  unfold detectSwipeGesture.
  destruct (brightPixels f) as [handXSum count].
  destruct (count <? 10); [simpl; congruence|].
  destruct (0 <? gestureCooldownRef r); [simpl; congruence|].
  destruct (lastXRef r) as [lastX|]; [|simpl; congruence].
  destruct (Qgtb _ 50); simpl; congruence.
Qed.

(** What follows a frame's result in the output is the output of the
    remaining frames, from the refs that frame left. *)
Lemma frames_split (fs : list ImageData) :
  forall (r : Refs) (l1 : list Swipe) (s : Swipe) (rest : list Swipe),
    snd (frames r fs) = l1 ++ s :: rest ->
    exists (r0 : Refs) (f : ImageData) (fs' : list ImageData),
      s = snd (detectSwipeGesture r0 f)
      /\ rest = snd (frames (fst (detectSwipeGesture r0 f)) fs').
Proof.
  induction fs as [|f fs IH]; intros r l1 s rest H.
  - simpl in H. destruct l1; discriminate.
  - rewrite frames_cons in H.
    destruct l1 as [|s1 l1]; simpl in H; injection H as Hs Hrest.
    + exists r, f, fs. split; congruence.
    + exact (IH _ l1 s rest Hrest).
Qed.

(** X18.  Between two swipes the detector returns at least 20 frames without
    one: whatever the frames are, two swipes are never fewer than 21 frames
    apart. *)
Theorem swipes_are_twenty_frames_apart
    (r : Refs) (fs : list ImageData)
    (l1 : list Swipe) (s1 : Swipe) (mid : list Swipe) (s2 : Swipe) (l3 : list Swipe) :
  snd (frames r fs) = l1 ++ s1 :: mid ++ s2 :: l3 ->
  s1 <> none -> s2 <> none ->
  (20 <= length mid)%nat.
Proof.
  intros H H1 H2.
  destruct (frames_split fs r l1 s1 _ H) as (r0 & f & fs' & -> & Hrest).
  pose proof (swipe_arms_cooldown r0 f H1) as Hcool.
  destruct (Nat.le_gt_cases 20 (length mid)) as [Hok | Hshort]; [exact Hok|].
  exfalso. apply H2.
  pose proof (cooldown_is_silent (firstn (S (length mid)) fs')
                (fst (detectSwipeGesture r0 f))) as Hsilent.
  rewrite frames_firstn, <- Hrest in Hsilent.
  assert (firstn (S (length mid)) (mid ++ s2 :: l3) = mid ++ [s2]) as E.
  { replace (S (length mid)) with (length mid + 1)%nat by lia.
    rewrite firstn_app_2. reflexivity. }
  rewrite E in Hsilent.
  assert (Z.of_nat (length (firstn (S (length mid)) fs'))
          <= gestureCooldownRef (fst (detectSwipeGesture r0 f))) as Hlen.
  { rewrite Hcool, length_firstn. lia. }
  specialize (Hsilent Hlen).
  apply List.Forall_app in Hsilent. destruct Hsilent as [_ Hlast].
  inversion Hlast as [|? ? Hs2 _]. exact Hs2.
Qed.

Lemma swipes_are_twenty_frames_apart_witness :
  let moved := testFrame 1600 1600 in
  let still := testFrame 0 1600 in
  let fs := still :: moved :: repeat still 10 ++ repeat moved 10 ++ [still] in
  snd (frames initialRefs fs) = [none] ++ next :: repeat none 20 ++ prev :: []
  /\ (20 <= length (repeat none 20))%nat.
Proof.
  intros moved still fs.
  assert (snd (frames initialRefs fs) = [none] ++ next :: repeat none 20 ++ prev :: [])
    as E by (vm_compute; reflexivity).
  split; [exact E|].
  apply (swipes_are_twenty_frames_apart initialRefs fs [none] next (repeat none 20)
           prev [] E); discriminate.
Defined.

End SwipeTrackerCadence.

(* ===================================================================== *)
(** * Invariants of the calibration modal *)
(* ===================================================================== *)

Module CalibrationMore.
Import Landmarks Calibration CalibrationFacts.
Local Open Scope Q_scope.

(** ** What a frame does *)

(** The effect either ignores the frame, or the modal was collecting at a
    gesture step, the frame is a full one, the updater ran, and the counter
    went up by one, stopping the collection with success at ten. *)
Lemma onHandLandmarks_cases (hl : option (list Hand)) (w : World) :
  onHandLandmarks hl w = w
  \/ exists (k : Key.t) (landmarks : Hand) (h : Heap),
       isCollecting (modal w) = true
       /\ currentGesture (modal w) = Some k
       /\ firstHand hl = [landmarks]
       /\ fullFrame hl
       /\ addSample k landmarks (calibrationData (modal w)) (heap w) = Some h
       /\ onHandLandmarks hl w
          = {| modal :=
                 setSamplesCollected (S (samplesCollected (modal w)))
                   (if (samplesNeeded <=? S (samplesCollected (modal w)))%nat
                    then setDetectionStatus success (stopCollecting (modal w))
                    else modal w);
               heap := h |}.
Proof.
  unfold onHandLandmarks.
  destruct hl as [[|landmarks rest]|]; [left; reflexivity | | left; reflexivity].
  destruct (currentGesture (modal w)) as [k|]; [|left; reflexivity].
  destruct (isCollecting (modal w)) eqn:Hcol; [|left; reflexivity].
  simpl negb. cbv iota.
  destruct (Nat.ltb_spec (length landmarks) 21) as [|Hfull]; [left; reflexivity|].
  destruct (addSample k landmarks (calibrationData (modal w)) (heap w)) as [h|] eqn:Hadd;
    [|left; reflexivity].
  right. exists k, landmarks, h. repeat split; trivial.
Qed.

(** X19.  The guards of the landmark effect: a frame changes nothing, in the
    modal or in the store, unless the modal is collecting, the current step
    has a gesture, and the frame has a first hand of at least 21 landmarks. *)
Theorem frames_are_ignored_outside_collection (hl : option (list Hand)) (w : World) :
  isCollecting (modal w) = false
  \/ currentGesture (modal w) = None
  \/ ~ fullFrame hl ->
  onHandLandmarks hl w = w.
Proof.
  intros Hguard.
  destruct (onHandLandmarks_cases hl w)
    as [E | (k & landmarks & h & Hcol & Hk & _ & Hfull & _)]; [exact E|].
  destruct Hguard as [H | [H | H]]; [congruence | congruence | contradiction].
Qed.

Lemma frames_are_ignored_outside_collection_witness :
  ~ fullFrame (Some [[atY 0; atY 1]])
  /\ onHandLandmarks (Some [[atY 0; atY 1]]) collectingThumbUp = collectingThumbUp.
Proof.
  assert (~ fullFrame (Some [[atY 0; atY 1]])) as Hshort by (simpl; lia).
  split; [exact Hshort|].
  apply (frames_are_ignored_outside_collection (Some [[atY 0; atY 1]]) collectingThumbUp).
  right. right. exact Hshort.
Defined.

(** ** Counters and steps *)

Lemma onHandLandmarks_counters (hl : option (list Hand)) (w : World) :
  countersOk (modal w) -> countersOk (modal (onHandLandmarks hl w)).
Proof.
  intros (Hstep & Hmax & Hcol & Hsucc).
  destruct (onHandLandmarks_cases hl w)
    as [-> | (k & landmarks & h & Hc & _ & _ & _ & _ & ->)];
    [repeat split; tauto|].
  specialize (Hcol Hc). unfold countersOk, samplesNeeded in *. cbn [modal].
  destruct (Nat.leb_spec 10 (S (samplesCollected (modal w)))); simpl.
  - repeat split; try lia; try discriminate.
  - split; [lia|]. split; [lia|]. split; [intros _; lia|].
    intros Hs. destruct (Hsucc Hs) as [_ Hf]. congruence.
Qed.

Lemma reachable_counters (w : World) : reachable w -> countersOk (modal w).
Proof.
  induction 1 as [|hl w _ IH|w _ IH|n w _ IH|w _ IH|w _ IH|w _ IH|w _ IH].
  - unfold countersOk, samplesNeeded. simpl. repeat split; try lia; discriminate.
  - apply onHandLandmarks_counters. exact IH.
  - destruct IH as (Hstep & _). unfold countersOk, samplesNeeded. simpl.
    repeat split; try lia; discriminate.
  - unfold collectionTimeout. destruct (n <? samplesNeeded)%nat; [|exact IH].
    destruct IH as (Hstep & Hmax & _). unfold countersOk. simpl.
    repeat split; try assumption; discriminate.
  - unfold nextStep.
    destruct (Nat.ltb_spec (currentStep (modal w)) (length CALIBRATION_STEPS - 1))
      as [Hlt|]; [|exact IH].
    simpl in Hlt. unfold countersOk, samplesNeeded. simpl.
    repeat split; try lia; discriminate.
  - unfold prevStep.
    destruct (Nat.ltb_spec 0 (currentStep (modal w))); [|exact IH].
    destruct IH as (Hstep & _). unfold countersOk, samplesNeeded. simpl.
    repeat split; try lia; discriminate.
  - destruct IH as (Hstep & _). unfold resetStep.
    destruct (currentGesture (modal w)); unfold countersOk, samplesNeeded; simpl;
      repeat split; try lia; discriminate.
  - destruct IH as (Hstep & Hmax & _ & Hsucc). unfold countersOk. simpl.
    split; [exact Hstep|]. split; [exact Hmax|]. split; [discriminate|].
    intros Hs. split; [apply (Hsucc Hs) | reflexivity].
Qed.

(** X20.  In every state the modal can reach: the current step is one of the
    seven steps; the sample counter never passes the ten samples needed;
    while collecting it is below ten; and the status is success only with
    exactly ten samples and the collection stopped. *)
Theorem counters_stay_in_range (w : World) :
  reachable w ->
  is_Some (CALIBRATION_STEPS !! currentStep (modal w))
  /\ (samplesCollected (modal w) <= samplesNeeded)%nat
  /\ (isCollecting (modal w) = true -> (samplesCollected (modal w) < samplesNeeded)%nat)
  /\ (detectionStatus (modal w) = success ->
      samplesCollected (modal w) = samplesNeeded /\ isCollecting (modal w) = false).
Proof.
  intros Hw. destruct (reachable_counters w Hw) as (Hstep & Hrest).
  split; [|exact Hrest].
  apply lookup_lt_is_Some_2. simpl. lia.
Qed.

Lemma counters_stay_in_range_witness :
  reachable (feed 10 (Some [thumbHand]) collectingThumbUp)
  /\ detectionStatus (modal (feed 10 (Some [thumbHand]) collectingThumbUp)) = success
  /\ samplesCollected (modal (feed 10 (Some [thumbHand]) collectingThumbUp)) = samplesNeeded.
Proof.
  assert (forall n w, reachable w -> reachable (feed n (Some [thumbHand]) w)) as Hfeed.
  { induction n as [|n IH]; intros w Hw; [exact Hw|].
    cbn [feed]. apply IH. apply reach_landmarks. exact Hw. }
  assert (reachable (feed 10 (Some [thumbHand]) collectingThumbUp)) as Hw.
  { apply Hfeed. apply reach_start. apply reach_next. apply reach_initial. }
  assert (detectionStatus (modal (feed 10 (Some [thumbHand]) collectingThumbUp)) = success)
    as Hs by (vm_compute; reflexivity).
  split; [exact Hw|]. split; [exact Hs|].
  apply (counters_stay_in_range _ Hw). exact Hs.
Defined.

Lemma progress_bounds (step samples : nat) :
  (step <= 6)%nat -> (samples <= 10)%nat ->
  0 <= calibrationProgress
         {| currentStep := step; calibrationData := EMPTY_CALIBRATION_DATA;
            samplesCollected := samples; isCollecting := false;
            detectionStatus := waiting; collectionIntervalRef := false |} <= 100.
Proof.
  intros Hstep Hsamples.
  assert (0 <= inject_Z (Z.of_nat samples) <= 10) as Hs.
  { split.
    - change 0 with (inject_Z 0). rewrite <- Zle_Qle. lia.
    - change 10 with (inject_Z 10). rewrite <- Zle_Qle. lia. }
  assert (0 <= inject_Z (Z.of_nat samples) / inject_Z (Z.of_nat samplesNeeded) <= 1)
    as Hfrac.
  { change (inject_Z (Z.of_nat samplesNeeded)) with 10. split.
    - apply Qle_shift_div_l; [reflexivity | lra].
    - apply Qle_shift_div_r; [reflexivity | lra]. }
  unfold calibrationProgress.
  cbn [currentStep samplesCollected].
  set (X := inject_Z (Z.of_nat samples) / inject_Z (Z.of_nat samplesNeeded)) in *.
  clearbody X. clear Hs.
  change (inject_Z (Z.of_nat (length CALIBRATION_STEPS) - 2)) with 5.
  unfold Qdiv. change (/ 5) with (1 # 5).
  do 7 (destruct step as [|step];
        [ cbn [Nat.ltb Nat.leb andb length CALIBRATION_STEPS Nat.sub];
          repeat match goal with
                 | |- context [inject_Z ?z] =>
                     let v := eval vm_compute in (inject_Z z) in
                     change (inject_Z z) with v
                 end;
          lra |]).
  lia.
Qed.

(** X21.  In every state the modal can reach the overall progress shown by
    the bar is between 0 and 100 percent; it is 0 on the intro step and 100
    on the final step. *)
Theorem progress_is_a_percentage (w : World) :
  reachable w ->
  0 <= calibrationProgress (modal w) <= 100
  /\ (currentStep (modal w) = 0%nat -> calibrationProgress (modal w) == 0)
  /\ (currentStep (modal w) = 6%nat -> calibrationProgress (modal w) == 100).
Proof.
  intros Hw. destruct (reachable_counters w Hw) as (Hstep & Hmax & _).
  unfold samplesNeeded in Hmax.
  pose proof (progress_bounds (currentStep (modal w)) (samplesCollected (modal w))
                Hstep Hmax) as Hb.
  split; [exact Hb|].
  split; intros E; unfold calibrationProgress; rewrite E; reflexivity.
Qed.

Lemma progress_is_a_percentage_witness :
  reachable collectingThumbUp
  /\ 0 <= calibrationProgress (modal collectingThumbUp) <= 100.
Proof.
  assert (reachable collectingThumbUp) as Hw
    by (apply reach_start; apply reach_next; apply reach_initial).
  split; [exact Hw|].
  apply (progress_is_a_percentage collectingThumbUp Hw).
Defined.

(** X22.  Next and Back undo each other on the step: Back after Next returns
    to the step Next was pressed on, unless that was the final step, and Next
    after Back returns to it unless that was the intro; both leave the step
    they arrive on Idle, and neither calls the parent on the way. *)
Theorem next_and_back_undo_each_other (w : World) :
  ((currentStep (modal w) < 6)%nat ->
   currentStep (modal (fst (prevStep (fst (nextStep w))))) = currentStep (modal w)
   /\ isIdle (modal (fst (prevStep (fst (nextStep w)))))
   /\ snd (nextStep w) = [] /\ snd (prevStep (fst (nextStep w))) = [])
  /\ ((0 < currentStep (modal w) <= 6)%nat ->
      currentStep (modal (fst (nextStep (fst (prevStep w))))) = currentStep (modal w)
      /\ isIdle (modal (fst (nextStep (fst (prevStep w)))))
      /\ snd (prevStep w) = [] /\ snd (nextStep (fst (prevStep w))) = [])
  /\ (currentStep (modal w) = 0%nat -> prevStep w = (w, [onClose])).
Proof.
  unfold nextStep, prevStep, isIdle. cbn [length CALIBRATION_STEPS].
  split; [|split].
  - intros Hlt.
    destruct (Nat.ltb_spec (currentStep (modal w)) (7 - 1)); [|lia].
    cbn [fst snd modal currentStep setCurrentStep setDetectionStatus
         setSamplesCollected stopCollecting].
    destruct (Nat.ltb_spec 0 (currentStep (modal w) + 1)); [|lia].
    cbn. repeat split; lia.
  - intros [Hpos Hle].
    destruct (Nat.ltb_spec 0 (currentStep (modal w))); [|lia].
    cbn [fst snd modal currentStep setCurrentStep setDetectionStatus
         setSamplesCollected stopCollecting].
    destruct (Nat.ltb_spec (currentStep (modal w) - 1) (7 - 1)); [|lia].
    cbn. repeat split; lia.
  - intros ->. reflexivity.
Qed.

(** ** The store *)

Lemma lmY_full (lm : Hand) (i : nat) :
  (21 <= length lm)%nat -> (i <= 20)%nat -> exists q : Q, lmY lm i = Some q.
Proof.
  intros Hlen Hi. unfold lmY.
  destruct (lm !! i) as [p|] eqn:E.
  - eexists. reflexivity.
  - apply lookup_ge_None in E. lia.
Qed.

Lemma getKey_injective (k k' : Key.t) :
  getKey k EMPTY_CALIBRATION_DATA = getKey k' EMPTY_CALIBRATION_DATA -> k = k'.
Proof. destruct k, k'; simpl; congruence. Qed.

Ltac read_landmarks lm Hy :=
  repeat match goal with
         | |- context [lmY lm ?i] =>
             let q := fresh "q" in
             let E := fresh "E" in
             destruct (Hy i ltac:(lia)) as [q E]; rewrite E; clear E
         end.

Ltac other_cells Hwf :=
  let k' := fresh "k" in
  intros k'; destruct (Hwf k') as (? & ? & ?);
  destruct k'; cbn [getKey EMPTY_CALIBRATION_DATA thumbUp pinkyUp openPalm closedFist
                    pointing] in *;
  first [ rewrite lookup_insert_ne by discriminate; eauto
        | rewrite lookup_insert_eq; eexists; split; [reflexivity|] ].

(** The updater on a well-formed store and a full hand: it succeeds, the
    store stays well formed, the cell of the key gets the hand appended to its
    samples, and the cells of the other keys are not written. *)
Lemma addSample_spec (k : Key.t) (lm : Hand) (h : Heap) :
  wellFormed h -> (21 <= length lm)%nat ->
  exists (h' : Heap) (d d' : StepData),
    addSample k lm EMPTY_CALIBRATION_DATA h = Some h'
    /\ wellFormed h'
    /\ h !! getKey k EMPTY_CALIBRATION_DATA = Some d
    /\ h' !! getKey k EMPTY_CALIBRATION_DATA = Some d'
    /\ samplesOf d' = samplesOf d ++ [lm]
    /\ (forall k' : Key.t,
          k' <> k ->
          h' !! getKey k' EMPTY_CALIBRATION_DATA = h !! getKey k' EMPTY_CALIBRATION_DATA).
Proof.
  intros Hwf Hlen.
  pose proof (fun i Hi => lmY_full lm i Hlen Hi) as Hy.
  destruct (Hwf k) as (d & Hd & Hshape).
  destruct k; destruct d; simpl in Hshape; try contradiction;
    cbn [getKey EMPTY_CALIBRATION_DATA thumbUp pinkyUp openPalm closedFist pointing]
      in Hd |- *;
    unfold addSample; read_landmarks lm Hy;
    cbn [mbind option_bind thumbUp pinkyUp openPalm closedFist pointing
         EMPTY_CALIBRATION_DATA];
    rewrite Hd;
    (eexists; eexists; eexists;
     split; [reflexivity|];
     split; [|split; [reflexivity|];
              split; [apply lookup_insert_eq|];
              split; [reflexivity|];
              intros k' Hk'; apply lookup_insert_ne;
              intros Heq; apply Hk'; symmetry;
              apply getKey_injective; exact Heq]);
    other_cells Hwf; simpl; trivial;
    rewrite Hshape; simpl; unfold foldAverages; rewrite length_imap; exact Hshape.
Qed.

Lemma reachable_wellFormed (w : World) : reachable w -> wellFormed (heap w).
Proof.
  induction 1 as [|hl w Hw IH|w _ IH|n w _ IH|w _ IH|w _ IH|w _ IH|w _ IH].
  - intros k. destruct k; simpl; eexists; (split; [reflexivity|]); simpl; trivial.
  - destruct (onHandLandmarks_cases hl w)
      as [-> | (k & lm & h & _ & _ & Hfirst & Hfull & Hadd & ->)]; [exact IH|].
    simpl. rewrite (reachable_refs w Hw) in Hadd.
    destruct hl as [[|lm0 rest]|]; simpl in Hfull, Hfirst; try contradiction.
    injection Hfirst as ->.
    destruct (addSample_spec k lm (heap w) IH Hfull) as (h' & d & d' & E & Hwf' & _).
    rewrite E in Hadd. injection Hadd as <-. exact Hwf'.
  - exact IH.
  - unfold collectionTimeout. destruct (n <? samplesNeeded)%nat; exact IH.
  - unfold nextStep.
    destruct (currentStep (modal w) <? length CALIBRATION_STEPS - 1)%nat; exact IH.
  - unfold prevStep. destruct (0 <? currentStep (modal w))%nat; exact IH.
  - rewrite resetStep_heap. exact IH.
  - exact IH.
Qed.

(** X23.  In every state the modal can reach, a full frame that arrives
    while it is collecting at a gesture step is always recorded: the updater
    cannot fail, the counter goes up by exactly one, the hand is appended to
    that gesture's samples, and the data of the other four gestures is left
    as it was. *)
Theorem a_full_frame_is_always_recorded
    (w : World) (k : Key.t) (hl : option (list Hand)) (landmarks : Hand) :
  reachable w ->
  isCollecting (modal w) = true ->
  currentGesture (modal w) = Some k ->
  fullFrame hl -> firstHand hl = [landmarks] ->
  samplesCollected (modal (onHandLandmarks hl w)) = S (samplesCollected (modal w))
  /\ samplesAt (onHandLandmarks hl w) k = samplesAt w k ++ [landmarks]
  /\ (forall k' : Key.t,
        k' <> k -> stepDataOf (onHandLandmarks hl w) k' = stepDataOf w k').
Proof.
  intros Hw Hcol Hk Hfull Hfirst.
  pose proof (reachable_refs w Hw) as Hrefs.
  pose proof (reachable_refs _ (reach_landmarks hl w Hw)) as Hrefs'.
  pose proof (reachable_wellFormed w Hw) as Hwf.
  destruct hl as [[|lm rest]|]; simpl in Hfull, Hfirst; try contradiction.
  injection Hfirst as ->.
  destruct (addSample_spec k landmarks (heap w) Hwf Hfull)
    as (h' & d & d' & E & _ & Hd & Hd' & Hsamples & Hothers).
  assert (onHandLandmarks (Some (landmarks :: rest)) w
          = {| modal :=
                 setSamplesCollected (S (samplesCollected (modal w)))
                   (if (samplesNeeded <=? S (samplesCollected (modal w)))%nat
                    then setDetectionStatus success (stopCollecting (modal w))
                    else modal w);
               heap := h' |}) as Hstep.
  { unfold onHandLandmarks. rewrite Hk, Hcol. simpl negb. cbv iota.
    destruct (Nat.ltb_spec (length landmarks) 21); [lia|].
    rewrite Hrefs, E. reflexivity. }
  unfold samplesAt, stepDataOf. rewrite Hrefs', Hrefs.
  rewrite Hstep. cbn [heap modal].
  split; [|split].
  - destruct (samplesNeeded <=? S (samplesCollected (modal w)))%nat; reflexivity.
  - rewrite Hd, Hd'. exact Hsamples.
  - intros k' Hk'. apply Hothers. exact Hk'.
Qed.

Lemma a_full_frame_is_always_recorded_witness :
  reachable collectingThumbUp
  /\ samplesAt (onHandLandmarks (Some [thumbHand]) collectingThumbUp) Key.thumbUp
     = samplesAt collectingThumbUp Key.thumbUp ++ [thumbHand].
Proof.
  assert (reachable collectingThumbUp) as Hw
    by (apply reach_start; apply reach_next; apply reach_initial).
  split; [exact Hw|].
  apply (a_full_frame_is_always_recorded collectingThumbUp Key.thumbUp
           (Some [thumbHand]) thumbHand Hw); try reflexivity.
  simpl. lia.
Defined.

(** ** Samples are only ever added *)

Lemma reachable_handle (w : World) (e : Event) : reachable w -> reachable (handle w e).
Proof.
  intros Hw. destruct e; simpl.
  - apply reach_landmarks; exact Hw.
  - apply reach_start; exact Hw.
  - apply reach_timeout; exact Hw.
  - apply reach_next; exact Hw.
  - apply reach_prev; exact Hw.
  - apply reach_reset; exact Hw.
  - apply reach_cancel; exact Hw.
Qed.

Lemma reachable_handleAll (es : list Event) :
  forall w : World, reachable w -> reachable (handleAll w es).
Proof.
  unfold handleAll. induction es as [|e es IH]; intros w Hw; [exact Hw|].
  simpl. apply IH. apply reachable_handle. exact Hw.
Qed.

Lemma handle_heap (w : World) (e : Event) :
  (forall hl, e <> Landmarks hl) -> heap (handle w e) = heap w.
Proof.
  intros He. destruct e as [hl| |n| | | |]; simpl.
  - destruct (He hl eq_refl).
  - reflexivity.
  - unfold collectionTimeout. destruct (n <? samplesNeeded)%nat; reflexivity.
  - unfold nextStep.
    destruct (currentStep (modal w) <? length CALIBRATION_STEPS - 1)%nat; reflexivity.
  - unfold prevStep. destruct (0 <? currentStep (modal w))%nat; reflexivity.
  - apply resetStep_heap.
  - reflexivity.
Qed.

Lemma handle_samples (w : World) (e : Event) (k : Key.t) :
  reachable w ->
  exists extra : list Hand, samplesAt (handle w e) k = samplesAt w k ++ extra.
Proof.
  intros Hw.
  assert (stepDataOf (handle w e) k = stepDataOf w k ->
          exists extra, samplesAt (handle w e) k = samplesAt w k ++ extra) as Hsame.
  { intros E. exists []. unfold samplesAt. rewrite E, app_nil_r. reflexivity. }
  destruct e as [hl| |n| | | |];
    try (apply Hsame; unfold stepDataOf;
         rewrite (reachable_refs _ (reachable_handle w _ Hw)), (reachable_refs w Hw),
           handle_heap by discriminate;
         reflexivity).
  destruct (onHandLandmarks_cases hl w)
    as [E | (k0 & lm & h & Hcol & Hk0 & Hfirst & Hfull & _)].
  - apply Hsame. simpl. rewrite E. reflexivity.
  - destruct (a_full_frame_is_always_recorded w k0 hl lm Hw Hcol Hk0 Hfull Hfirst)
      as (_ & Happ & Hothers).
    assert (k = k0 \/ k <> k0) as [->|Hne]
      by (destruct k, k0; first [left; reflexivity | right; discriminate]).
    + exists [lm]. exact Happ.
    + apply Hsame. simpl. apply Hothers. exact Hne.
Qed.

(** X24.  Nothing the modal does ever removes a stored sample: over any
    sequence of frames, timeouts and button presses (Start, Next, Back, Reset,
    Cancel) from a reachable state, the samples stored for each gesture only
    get longer. *)
Theorem samples_are_only_ever_added (w : World) (es : list Event) (k : Key.t) :
  reachable w ->
  exists extra : list Hand, samplesAt (handleAll w es) k = samplesAt w k ++ extra.
Proof.
  unfold handleAll. revert w.
  induction es as [|e es IH]; intros w Hw.
  - exists []. simpl. rewrite app_nil_r. reflexivity.
  - simpl. destruct (handle_samples w e k Hw) as [x1 E1].
    destruct (IH (handle w e) (reachable_handle w e Hw)) as [x2 E2].
    exists (x1 ++ x2). rewrite E2, E1, app_assoc. reflexivity.
Qed.

Lemma samples_are_only_ever_added_witness :
  reachable collectingThumbUp
  /\ exists extra : list Hand,
       samplesAt (handleAll collectingThumbUp
                    [Landmarks (Some [thumbHand]); Reset; Start;
                     Landmarks (Some [fistHand]); Cancel]) Key.thumbUp
       = samplesAt collectingThumbUp Key.thumbUp ++ extra.
Proof.
  assert (reachable collectingThumbUp) as Hw
    by (apply reach_start; apply reach_next; apply reach_initial).
  split; [exact Hw|].
  apply (samples_are_only_ever_added collectingThumbUp _ Key.thumbUp Hw).
Defined.

(** ** Ten frames make a success *)





(** ** The stored mean *)






End CalibrationMore.

(* ===================================================================== *)
(** * Calls that are never lost, and the simple hook *)
(* ===================================================================== *)

Module DebouncerMore.
Import Debouncer GestureHook DebouncerFacts.
Local Open Scope Z_scope.

(** X27.  Candidates that arrive at least one and a half windows after one
    another (and after the time in the refs) are never lost: for a
    non-negative [debounceMs] every one of them is emitted, whatever the
    gesture types are. *)
Theorem spaced_calls_are_all_emitted (o : GestureDetectionOptions) (cs : list Call) :
  0 <= debounceMs o ->
  forall r : Refs,
    spaced (3 * debounceMs o) (lastGestureTimeRef r) cs ->
    emitted o r cs = map eventOf cs.
Proof.
  intros Hnn. induction cs as [|c cs IH]; intros r Hsp; [reflexivity|].
  destruct Hsp as [Hgap Hrest].
  rewrite emitted_cons.
  destruct (processGesture_cases o r c)
    as [[Hlt _] | [(_ & _ & Hlt & _) | (_ & _ & e & Ht & Hn & Hq & E)]];
    [lia | lia |].
  rewrite E. simpl.
  assert (e = eventOf c) as -> by (destruct e; simpl in *; subst; reflexivity).
  rewrite (IH (refsAfter (eventOf c))); [reflexivity | exact Hrest].
Qed.

Lemma spaced_calls_are_all_emitted_witness :
  let cs := [candidate SWIPE_LEFT 1 1200; candidate SWIPE_LEFT 1 2400;
             candidate SWIPE_LEFT 1 3600] in
  0 <= debounceMs defaultOptions
  /\ spaced (3 * debounceMs defaultOptions) (lastGestureTimeRef initialRefs) cs
  /\ emitted defaultOptions initialRefs cs = map eventOf cs.
Proof.
  intros cs.
  assert (spaced (3 * debounceMs defaultOptions) (lastGestureTimeRef initialRefs) cs)
    as Hsp by (simpl; lia).
  split; [simpl; lia|]. split; [exact Hsp|].
  apply (spaced_calls_are_all_emitted defaultOptions cs); [simpl; lia | exact Hsp].
Defined.

(** ** The simple hook *)

Lemma simple_run_cons (d r : Z) (g : GestureType) (t : Z) (cs : list (GestureType * Z)) :
  snd (SimpleHook.run d r ((g, t) :: cs)) = snd (SimpleHook.run d r cs)
  \/ (d <= t - r
      /\ snd (SimpleHook.run d r ((g, t) :: cs)) = (g, t) :: snd (SimpleHook.run d t cs)).
Proof.
  simpl. unfold SimpleHook.processGesture.
  destruct (Z.ltb_spec (t - r) d).
  - left. destruct (SimpleHook.run d r cs). reflexivity.
  - right. split; [lia|]. destruct (SimpleHook.run d t cs). reflexivity.
Qed.

Lemma simple_run_after (d : Z) (cs : list (GestureType * Z)) :
  0 <= d ->
  forall (r : Z) (e : GestureType * Z),
    In e (snd (SimpleHook.run d r cs)) -> d <= snd e - r.
Proof.
  intros Hd. induction cs as [|[g t] cs IH]; intros r e Hin; [destruct Hin|].
  destruct (simple_run_cons d r g t cs) as [E | [Hge E]]; rewrite E in Hin.
  - apply IH. exact Hin.
  - destruct Hin as [<- | Hin]; [exact Hge|].
    apply IH in Hin. lia.
Qed.

Lemma simple_run_split (d : Z) (cs : list (GestureType * Z)) :
  forall (r : Z) (l1 : list (GestureType * Z)) (e : GestureType * Z)
         (rest : list (GestureType * Z)),
    snd (SimpleHook.run d r cs) = l1 ++ e :: rest ->
    exists cs', rest = snd (SimpleHook.run d (snd e) cs').
Proof.
  induction cs as [|[g t] cs IH]; intros r l1 e rest H.
  - destruct l1; discriminate.
  - destruct (simple_run_cons d r g t cs) as [E | [_ E]]; rewrite E in H.
    + eauto.
    + destruct l1 as [|e1 l1]; simpl in H; injection H as <- H.
      * exists cs. symmetry. exact H.
      * eauto.
Qed.

(** X28.  The simple hook keeps the plain window too: any two gestures it
    passes to its callback are at least [debounceMs] apart.  And it is the
    more permissive of the two hooks: a call the enhanced [processGesture]
    accepts would be accepted by the simple one from the same
    [lastGestureTime]. *)
Theorem simple_hook_keeps_the_window
    (d r : Z) (cs : list (GestureType * Z))
    (l1 : list (GestureType * Z)) (e1 : GestureType * Z)
    (l2 : list (GestureType * Z)) (e2 : GestureType * Z)
    (l3 : list (GestureType * Z)) :
  snd (SimpleHook.run d r cs) = l1 ++ e1 :: l2 ++ e2 :: l3 ->
  d <= Z.abs (snd e2 - snd e1)
  /\ (forall (o : GestureDetectionOptions) (refs : Refs) (c : Call),
        suppressed (outcome o refs c) = false ->
        snd (SimpleHook.processGesture (debounceMs o) (lastGestureTimeRef refs)
               (gesture c) (now c))
        = Some (gesture c, now c)).
Proof.
  intros H. split.
  - destruct (Z.lt_ge_cases d 0) as [Hneg | Hnn]; [lia|].
    destruct (simple_run_split d cs r l1 e1 _ H) as [cs' Hrest].
    assert (d <= snd e2 - snd e1); [|lia].
    apply (simple_run_after d cs' Hnn).
    rewrite <- Hrest. apply in_or_app. right. left. reflexivity.
  - intros o refs c Hacc. unfold outcome in Hacc.
    unfold SimpleHook.processGesture.
    destruct (processGesture_cases o refs c)
      as [[_ E] | [(_ & _ & _ & E) | (Hge & _)]];
      try (rewrite E in Hacc; discriminate Hacc).
    destruct (Z.ltb_spec (now c - lastGestureTimeRef refs) (debounceMs o));
      [lia | reflexivity].
Qed.

Lemma simple_hook_keeps_the_window_witness :
  snd (SimpleHook.run 1000 0
         [(Some SWIPE_LEFT, 1000); (Some SWIPE_LEFT, 1500); (Some OPEN_PALM, 2000)])
  = [] ++ (Some SWIPE_LEFT, 1000) :: [] ++ (Some OPEN_PALM, 2000) :: []
  /\ 1000 <= Z.abs (2000 - 1000).
Proof.
  split; [reflexivity|].
  apply (simple_hook_keeps_the_window 1000 0
           [(Some SWIPE_LEFT, 1000); (Some SWIPE_LEFT, 1500); (Some OPEN_PALM, 2000)]
           [] (Some SWIPE_LEFT, 1000) [] (Some OPEN_PALM, 2000) [] eq_refl).
Defined.

End DebouncerMore.
